(** * project-zipper: the ignore-rule matcher, the directory walker and the
      option defaults, embedded from [src/] and checked against the
      specification.

    Layout:
    - [Js]        the few JavaScript value conventions the code relies on
                  (truthiness of [||]);
    - [Types]     [src/types.ts]: [ZipOptions], [GitignoreRule];
    - [Path]      the part of Node's [path] module the walker uses;
    - [Fs]        a directory tree and the [fs] calls read from it;
    - [Eff]       the effect of an async method: a log of the calls it
                  makes, and a result that is a value, a thrown error, or
                  exhausted fuel;
    - [Ignore]    the rule matcher behind [GitignoreParser.shouldIgnore];
    - [GitignoreParser]  [src/gitignore-parser.ts];
    - [FileScanner]      [src/file-scanner.ts]: [scanFiles], [scanDirectory];
    - [Zipper]    [src/zipper.ts]: [mergeDefaultOptions], [isHiddenFile],
                  [addFilesToArchive], [getFileList], [validateProject];
    - [Observe], [Examples]  what the properties speak of, and sample
                  projects;
    - [Expect], [Samples]    what the walker and the archiver are expected
                  to produce, and more sample projects;
    - [Stats]     [src/zipper.ts]: [getProjectStats];
    - the properties. *)

From Stdlib Require Import List String Ascii Bool ZArith Lia Arith Permutation.
Import ListNotations.
Local Open Scope string_scope.
Local Open Scope list_scope.

Set Implicit Arguments.

(* ===================================================================== *)
(** ** JavaScript values *)
(* ===================================================================== *)

Module Js.

(** A [number] as the option handling sees it: what [parseInt] can produce
    is an integer or [NaN]; any other double is truthy and is carried
    through unchanged exactly as a non-zero integer is. *)
Inductive number : Type :=
| Int (z : Z)
| NaN.

(** [x || d] returns [d] exactly when [x] is falsy.  A missing property reads
    as [undefined], which is falsy; for a number the falsy values are [0]
    and [NaN]; for a string, the empty string; for a boolean, [false]. *)
Definition truthy_number (n : number) : bool :=
  match n with
  | Int z => negb (Z.eqb z 0)
  | NaN => false
  end.

Definition truthy_string (s : string) : bool :=
  negb (String.eqb s EmptyString).

Definition or_number (x : option number) (d : number) : number :=
  match x with
  | Some n => if truthy_number n then n else d
  | None => d
  end.

Definition or_string (x : option string) (d : string) : string :=
  match x with
  | Some s => if truthy_string s then s else d
  | None => d
  end.

Definition or_bool (x : option bool) (d : bool) : bool :=
  match x with
  | Some b => if b then b else d
  | None => d
  end.

End Js.

(* ===================================================================== *)
(** ** src/types.ts *)
(* ===================================================================== *)

Module Types.

(** [interface ZipOptions]: every property is optional. *)
Record ZipOptions : Type := mkZipOptions {
  outputPath : option string;
  outputName : option string;
  includeHidden : option bool;
  compressionLevel : option Js.number
}.

(** [Required<ZipOptions>]. *)
Record RequiredZipOptions : Type := mkRequired {
  rOutputPath : string;
  rOutputName : string;
  rIncludeHidden : bool;
  rCompressionLevel : Js.number
}.

(** [interface GitignoreRule]. *)
Record GitignoreRule : Type := mkRule {
  pattern : string;
  negation : bool;
  directory : bool
}.

End Types.

(* ===================================================================== *)
(** ** The part of Node's [path] module that the code calls *)
(* ===================================================================== *)

Module Path.

(** An absolute, normalised path is the list of its segments below the
    filesystem root; the string that Node would print is
    ["/" ++ String.concat "/" segments].  The walker only ever builds paths
    by [path.join]-ing a directory with a name that [readdir] returned, so
    the normalisation that [path.join] performs has nothing to do. *)
Definition path : Type := list string.

Definition sep : string := "/".

(** [path.join(dir, item)] for a plain entry name [item]. *)
Definition join (dir : path) (item : string) : path := dir ++ [item].

(** [path.relative(from, to)] on absolute normalised paths: drop the common
    leading segments, climb out of what is left of [from] with [".."], then
    descend along what is left of [to]. *)
Fixpoint relativeSegs (from to : path) : list string :=
  match from, to with
  | f :: from', t :: to' =>
      if String.eqb f t then relativeSegs from' to'
      else map (fun _ => "..") from ++ to
  | _, _ => map (fun _ => "..") from ++ to
  end.

Definition relative (from to : path) : string :=
  String.concat sep (relativeSegs from to).

(** [s.split(sep)] for a one-character separator: never the empty list;
    ["a/b"] gives ["a"] and ["b"], ["a/"] gives ["a"] and the empty
    string, the empty string gives the empty string alone. *)
Fixpoint split (c : ascii) (s : string) : list string :=
  match s with
  | EmptyString => [EmptyString]
  | String a s' =>
      if Ascii.eqb a c then EmptyString :: split c s'
      else match split c s' with
           | [] => [String a EmptyString]
           | w :: ws => String a w :: ws
           end
  end.

(** A string names an absolute path when it starts with the separator. *)
Definition isAbsolute (s : string) : bool :=
  match s with
  | String a _ => Ascii.eqb a "/"
  | EmptyString => false
  end.

End Path.

(* ===================================================================== *)
(** ** The filesystem the code reads *)
(* ===================================================================== *)

Module Fs.
Import Path.

(** What a name in a directory listing can lead to.  The code asks one
    question of a [stat] result, [isDirectory()], so every entry that is
    not a directory is a file here, whatever else it may be: a [File] when
    its content can be read, [Sealed] when it cannot. *)
#[warnings="-register-all"]
Inductive node : Type :=
| File (content : string)
| Dir (entries : list (string * node))
| Locked   (* a directory that may be stat-ed but not listed *)
| Gone     (* a listed name whose stat fails: removed after the listing,
              a dangling link, or no permission *)
| Sealed.  (* a file that may be stat-ed but not read: no read permission *)

Inductive errno : Type := ENOENT | ENOTDIR | EACCES | EISDIR.

Fixpoint assoc (name : string) (entries : list (string * node)) : option node :=
  match entries with
  | [] => None
  | (n, x) :: rest => if String.eqb n name then Some x else assoc name rest
  end.

(** Resolving an absolute path from the filesystem root. *)
Fixpoint lookup (fs : node) (p : path) : option node :=
  match p with
  | [] => Some fs
  | s :: p' =>
      match fs with
      | Dir entries =>
          match assoc s entries with
          | Some child => lookup child p'
          | None => None
          end
      | _ => None
      end
  end.

(** [fs.promises.readdir(dir)]: the names, in listing order. *)
Definition readdir (fs : node) (dir : path) : errno + list string :=
  match lookup fs dir with
  | Some (Dir entries) => inr (map fst entries)
  | Some (File _) => inl ENOTDIR
  | Some Sealed => inl ENOTDIR
  | Some Locked => inl EACCES
  | Some Gone => inl ENOENT
  | None => inl ENOENT
  end.

(** [fs.promises.stat(p)] / [fs.statSync(p)], reduced to [isDirectory()]. *)
Definition stat (fs : node) (p : path) : errno + bool :=
  match lookup fs p with
  | Some (Dir _) => inr true
  | Some Locked => inr true
  | Some (File _) => inr false
  | Some Sealed => inr false
  | Some Gone => inl ENOENT
  | None => inl ENOENT
  end.

(** [fs.existsSync(p)]: true when the path can be stat-ed, never throws. *)
Definition existsSync (fs : node) (p : path) : bool :=
  match stat fs p with
  | inr _ => true
  | inl _ => false
  end.

(** [fs.readFileSync(p, 'utf8')]: the content of a file that can be read;
    fails on a directory, on a file without read permission and on a path
    that leads nowhere. *)
Definition readFileSync (fs : node) (p : path) : errno + string :=
  match lookup fs p with
  | Some (File content) => inr content
  | Some (Dir _) => inl EISDIR
  | Some Locked => inl EISDIR
  | Some Sealed => inl EACCES
  | Some Gone => inl ENOENT
  | None => inl ENOENT
  end.

(** Nesting depth of a tree: a walk needs one level of recursion per level
    of directories. *)
Fixpoint height (n : node) : nat :=
  match n with
  | Dir entries => S (list_max (map (fun e => height (snd e)) entries))
  | _ => 0
  end.

(** Every listing below [n] can be read and every listed name stat-ed. *)
Fixpoint readable (n : node) : bool :=
  match n with
  | File _ => true
  | Dir entries => forallb (fun e => readable (snd e)) entries
  | Locked => false
  | Gone => false
  | Sealed => true
  end.

Fixpoint distinct (names : list string) : bool :=
  match names with
  | [] => true
  | s :: rest => negb (existsb (String.eqb s) rest) && distinct rest
  end.

(** An entry name is not empty and holds no separator. *)
Definition nameOk (s : string) : bool :=
  negb (String.eqb s EmptyString)
  && negb (existsb (Ascii.eqb "/") (list_ascii_of_string s)).

(** What every real directory tree satisfies: a listing never repeats a
    name, and every name is a proper entry name. *)
Fixpoint wellFormed (n : node) : bool :=
  match n with
  | Dir entries =>
      distinct (map fst entries)
      && forallb (fun e => nameOk (fst e) && wellFormed (snd e)) entries
  | _ => true
  end.

(** The files below [n], when [n] sits at path [at_]: listing order, depth
    first. *)
Fixpoint filesUnder (n : node) (at_ : path) : list path :=
  match n with
  | File _ => [at_]
  | Sealed => [at_]
  | Dir entries => flat_map (fun e => filesUnder (snd e) (at_ ++ [fst e])) entries
  | _ => []
  end.

(** The same tree, with the listings possibly in another order: the order
    in which a directory lists its entries is not fixed. *)
#[warnings="-register-all"]
Inductive sameEntries : node -> node -> Prop :=
| same_File (content : string) : sameEntries (File content) (File content)
| same_Dir (entries1 entries2 reordered : list (string * node)) :
    Permutation reordered entries2 ->
    Forall2 (fun e1 e2 => fst e1 = fst e2 /\ sameEntries (snd e1) (snd e2))
            entries1 reordered ->
    sameEntries (Dir entries1) (Dir entries2)
| same_Locked : sameEntries Locked Locked
| same_Gone : sameEntries Gone Gone
| same_Sealed : sameEntries Sealed Sealed.

End Fs.

(* ===================================================================== *)
(** ** Effects of an async method *)
(* ===================================================================== *)

Module Eff.
Import Path Fs.

(** The calls a scan makes that the specification talks about. *)
Inductive event : Type :=
| Readdir (dir : path)          (* the entries of [dir] were read *)
| Stat (p : path)               (* [p] was stat-ed *)
| Exists (p : path)             (* [existsSync p] *)
| Query (relativePath : string).  (* the matcher was asked about this string *)

(** How a call ends: a value (the promise resolves), an exception (it
    rejects), or the recursion budget of the model ran out. *)
Inductive outcome (A : Type) : Type :=
| Value (a : A)
| Thrown (e : errno)
| OutOfFuel.
Arguments Thrown {A} e.
Arguments OutOfFuel {A}.

Definition eff (A : Type) : Type := (list event * outcome A)%type.

Definition ret {A} (a : A) : eff A := ([], Value a).

Definition bind {A B} (m : eff A) (k : A -> eff B) : eff B :=
  match m with
  | (l, Value a) => let (l', r) := k a in (l ++ l', r)
  | (l, Thrown e) => (l, Thrown e)
  | (l, OutOfFuel) => (l, OutOfFuel)
  end.

Definition outOfFuel {A} : eff A := ([], OutOfFuel).
Definition tell (ev : event) : eff unit := ([ev], Value tt).

(** A call to the filesystem: logged, and its error thrown. *)
Definition call {A} (ev : event) (r : errno + A) : eff A :=
  match r with
  | inr a => ([ev], Value a)
  | inl e => ([ev], Thrown e)
  end.

(** [try { m } catch (error) { handler }]. *)
Definition tryCatch {A} (m : eff A) (handler : errno -> eff A) : eff A :=
  match m with
  | (l, Thrown e) => let (l', r) := handler e in (l ++ l', r)
  | other => other
  end.

Definition log {A} (m : eff A) : list event := fst m.
Definition result {A} (m : eff A) : outcome A := snd m.

(** [for (const x of items) { s = body(x, s) }], stopping at the first
    exception. *)
Fixpoint forOf {A S} (items : list A) (body : A -> S -> eff S) (s : S) : eff S :=
  match items with
  | [] => ret s
  | x :: rest => bind (body x s) (forOf rest body)
  end.

End Eff.

Declare Scope eff_scope.
Notation "x <- m ;; k" := (Eff.bind m (fun x => k))
  (at level 61, m at next level, right associativity) : eff_scope.
Notation "m ;;; k" := (Eff.bind m (fun _ => k))
  (at level 61, right associativity) : eff_scope.

(* ===================================================================== *)
(** ** The rule matcher *)
(* ===================================================================== *)

(** [GitignoreParser] (src/gitignore-parser.ts) keeps one object of the
    package [ignore] and forwards to it: [ignore()] and [add] at
    construction, [ignores] in [shouldIgnore].  The package is not part of
    the sources; everything in this module stands for it and is written
    from the specification (sections 3, 4.1, 6 and 8). *)

Module Ignore.
Import Types Path.

(** Modelled from the spec: the package [ignore] is missing; one element
    of the glob text of a segment ("[*] matches within a segment, [?]
    matches one character, character classes [[...]] supported"). *)
Inductive tok : Type :=
| Lit (c : ascii)                                  (* that character *)
| AnyChar                                          (* [?] *)
| Star                                             (* [*] *)
| Class (neg : bool) (items : list (ascii * ascii)). (* [[...]], as ranges *)

(** Modelled from the spec: the package [ignore] is missing; one segment
    of a pattern, a glob or "[**] matches across segments". *)
Inductive pseg : Type :=
| Glob (toks : list tok)
| DoubleStar.                                      (* [**] *)

(** Modelled from the spec: the package [ignore] is missing; the members
    of a character class ([[...]] supported): [a-z] is a range, any other
    character stands for itself. *)
Fixpoint classItems (l : list ascii) : list (ascii * ascii) :=
  match l with
  | a :: rest =>
      match rest with
      | "-"%char :: b :: rest' => (a, b) :: classItems rest'
      | _ => (a, a) :: classItems rest
      end
  | [] => []
  end.

(** Modelled from the spec: the package [ignore] is missing; a class that
    opens with [!] or [^] is a complement. *)
Definition mkClass (raw : list ascii) : tok :=
  match raw with
  | "!"%char :: members => Class true (classItems members)
  | "^"%char :: members => Class true (classItems members)
  | members => Class false (classItems members)
  end.

(** Modelled from the spec: the package [ignore] is missing; where the
    reader of a glob text stands. *)
Inductive tstate : Type :=
| Normal
| Escaped
| InClass (raw : list ascii).   (* the characters read since [[], last first *)

(** Modelled from the spec: the package [ignore] is missing; a []] ends
    a class once the class has a member. *)
Definition closes (raw : list ascii) : bool :=
  match raw with
  | [] => false
  | ["!"%char] => false
  | ["^"%char] => false
  | _ => true
  end.

(** Modelled from the spec: the package [ignore] is missing; reading the
    glob text of one segment ([*], [?], [[...]], backslash escapes).
    "Malformed pattern syntax is treated permissively (pass-through as a
    literal or best-effort glob)": a class that never closes is read as
    its characters. *)
Fixpoint tokenize (st : tstate) (s : string) : list tok :=
  match s with
  | EmptyString =>
      match st with
      | Normal => []
      | Escaped => [Lit "\"%char]
      | InClass raw => Lit "["%char :: map Lit (rev raw)
      end
  | String c s' =>
      match st with
      | Escaped => Lit c :: tokenize Normal s'
      | Normal =>
          if Ascii.eqb c "\" then tokenize Escaped s'
          else if Ascii.eqb c "*" then Star :: tokenize Normal s'
          else if Ascii.eqb c "?" then AnyChar :: tokenize Normal s'
          else if Ascii.eqb c "[" then tokenize (InClass []) s'
          else Lit c :: tokenize Normal s'
      | InClass raw =>
          if Ascii.eqb c "]" && closes raw
          then mkClass (rev raw) :: tokenize Normal s'
          else tokenize (InClass (c :: raw)) s'
      end
  end.

(** Modelled from the spec: the package [ignore] is missing; membership
    in a class. *)
Definition inClass (c : ascii) (items : list (ascii * ascii)) : bool :=
  existsb (fun r => Nat.leb (nat_of_ascii (fst r)) (nat_of_ascii c)
                    && Nat.leb (nat_of_ascii c) (nat_of_ascii (snd r))) items.

(** Modelled from the spec: the package [ignore] is missing; one
    character against one element. *)
Definition tokOk (t : tok) (c : ascii) : bool :=
  match t with
  | Lit a => Ascii.eqb a c
  | AnyChar => true
  | Star => true
  | Class neg items => xorb neg (inClass c items)
  end.

(** Modelled from the spec: the package [ignore] is missing; "[*] matches
    within a segment, [?] matches one character". *)
Fixpoint matchToks (ts : list tok) (s : string) : bool :=
  match ts with
  | [] => match s with EmptyString => true | _ => false end
  | Star :: ts' =>
      (fix star (s : string) : bool :=
         matchToks ts' s
         || match s with
            | EmptyString => false
            | String _ s' => star s'
            end) s
  | t :: ts' =>
      match s with
      | EmptyString => false
      | String c s' => tokOk t c && matchToks ts' s'
      end
  end.

(** Modelled from the spec: the package [ignore] is missing; "[**]
    matches across segments". *)
Fixpoint matchSegs (ps : list pseg) (segs : list string) : bool :=
  match ps with
  | [] => match segs with [] => true | _ => false end
  | DoubleStar :: ps' =>
      (fix across (segs : list string) : bool :=
         matchSegs ps' segs
         || match segs with
            | [] => false
            | _ :: rest => across rest
            end) segs
  | Glob toks :: ps' =>
      match segs with
      | [] => false
      | s :: rest => matchToks toks s && matchSegs ps' rest
      end
  end.

(** Modelled from the spec: the package [ignore] is missing; a segment
    that is [**] alone crosses segments, any other is a glob. *)
Definition compileSeg (s : string) : pseg :=
  if String.eqb s "**" then DoubleStar else Glob (tokenize Normal s).

(** Modelled from the spec: the package [ignore] is missing; the
    "leading [/] root anchor" is not part of the first segment. *)
Definition stripLeadingSlash (s : string) : string :=
  match s with
  | String "/" s' => s'
  | _ => s
  end.

(** Modelled from the spec: the package [ignore] is missing; "anchoring
    semantics derived from leading/embedded [/]": a pattern with a separator
    is measured from the project root, one without matches a name at every
    depth (section 8: [/node_modules] only at the root, [node_modules] at
    every depth). *)
Definition anchored (pat : string) : bool :=
  match split "/" pat with
  | [_] => false
  | _ => true
  end.

(** Modelled from the spec: the package [ignore] is missing; a pattern
    against the segments of a candidate path. *)
Definition matchPattern (pat : string) (segs : list string) : bool :=
  if anchored pat
  then matchSegs (map compileSeg (split "/" (stripLeadingSlash pat))) segs
  else match segs with
       | [] => false
       | _ => matchSegs [compileSeg pat] [last segs EmptyString]
       end.

(** Modelled from the spec: the package [ignore] is missing; the last
    character of a line. *)
Fixpoint endsWith (c : ascii) (s : string) : bool :=
  match s with
  | EmptyString => false
  | String a EmptyString => Ascii.eqb a c
  | String _ s' => endsWith c s'
  end.

(** Modelled from the spec: the package [ignore] is missing; a line
    without its last character. *)
Fixpoint dropLast (s : string) : string :=
  match s with
  | EmptyString => EmptyString
  | String _ EmptyString => EmptyString
  | String a s' => String a (dropLast s')
  end.

(** Modelled from the spec: the package [ignore] is missing; "blank
    lines ... are not rules": nothing but spaces, tabs and carriage
    returns. *)
Definition isBlank (line : string) : bool :=
  forallb (fun c => Ascii.eqb c " " || Ascii.eqb c "009" || Ascii.eqb c "013")
          (list_ascii_of_string line).

(** Modelled from the spec: the package [ignore] is missing; "each
    non-blank, non-comment line becomes one rule; leading [!] sets negation
    and is stripped before pattern extraction; a trailing [/] (not counting
    an escaped trailing slash) sets directoryOnly and is stripped". *)
Definition parseLine (line : string) : option GitignoreRule :=
  if isBlank line then None
  else match line with
       | String "#" _ => None
       | _ =>
           let (neg, body) :=
             match line with
             | String "!" rest => (true, rest)
             | _ => (false, line)
             end in
           if endsWith "/" body && negb (endsWith "\" (dropLast body))
           then Some (mkRule (dropLast body) neg true)
           else Some (mkRule body neg false)
       end.

(** Modelled from the spec: the package [ignore] is missing; "rules
    preserve file order". *)
Fixpoint parseLines (lines : list string) : list GitignoreRule :=
  match lines with
  | [] => []
  | l :: rest =>
      match parseLine l with
      | Some r => r :: parseLines rest
      | None => parseLines rest
      end
  end.

(** Modelled from the spec: the package [ignore] is missing; the object
    that [ignore()] returns is its rule set, empty at first ("an empty rule
    set is used, meaning nothing is excluded"). *)
Definition ignore : list GitignoreRule := [].

(** Modelled from the spec: the package [ignore] is missing;
    [ig.add(content)] appends the rules of [content], "one rule per
    line". *)
Definition add (ig : list GitignoreRule) (content : string) : list GitignoreRule :=
  ig ++ parseLines (split "010" content).

(** Modelled from the spec: the package [ignore] is missing;
    "directoryOnly rules match only when the candidate path is known to be
    a directory". *)
Definition ruleMatches (r : GitignoreRule) (segs : list string) (isDir : bool) : bool :=
  implb (directory r) isDir && matchPattern (pattern r) segs.

(** Modelled from the spec: the package [ignore] is missing; "Evaluate
    rules in file order; each rule that matches updates a running verdict:
    a non-negated match sets verdict = excluded; a negated match sets
    verdict = included", "defaulting to included if no rule matches". *)
Definition testOne (rules : list GitignoreRule) (segs : list string) (isDir : bool) : bool :=
  fold_left (fun verdict r => if ruleMatches r segs isDir then negb (negation r) else verdict)
            rules false.

(** Modelled from the spec: the package [ignore] is missing; a negated
    match re-includes "provided no ancestor directory of the path is
    excluded", and what lies in an excluded directory is excluded with it
    (section 8: the rules [build/], [!build/keep.txt] exclude
    [build/keep.txt]).  The ancestors are tried from the root down, each one
    as a directory; [above] is the part of the path already passed. *)
Fixpoint excludedBelow (rules : list GitignoreRule) (above below : list string)
         (isDir : bool) : bool :=
  match below with
  | [] => false
  | s :: rest =>
      match rest with
      | [] => testOne rules (above ++ [s]) isDir
      | _ => if testOne rules (above ++ [s]) true then true
             else excludedBelow rules (above ++ [s]) rest isDir
      end
  end.

(** Modelled from the spec: the package [ignore] is missing;
    [isExcluded] for a path given as its segments and its kind ("a
    path+kind pair"). *)
Definition isExcluded (rules : list GitignoreRule) (segs : list string) (isDir : bool) : bool :=
  excludedBelow rules [] segs isDir.

(** Modelled from the spec: the package [ignore] is missing; the
    segments and the kind of a candidate given as a string.
    [shouldIgnore(filePath: string)] passes on a bare string, so the
    candidate is "known to be a directory" only when the string says so,
    with the trailing separator by which the rule file marks directories. *)
Definition candidate (path : string) : list string * bool :=
  let parts := split "/" path in
  if String.eqb (last parts EmptyString) EmptyString
  then (removelast parts, true)
  else (parts, false).

(** Modelled from the spec: the package [ignore] is missing;
    [ig.ignores(path)], the [isExcluded] of the specification on a
    string. *)
Definition ignores (ig : list GitignoreRule) (path : string) : bool :=
  if String.eqb path EmptyString then false
  else isExcluded ig (fst (candidate path)) (snd (candidate path)).

(** The verdict as claim C1 words it, to be compared with [ignores]: that
    of the last rule in file order that matches the candidate, "included"
    when none does. *)
Definition lastMatchVerdict (rules : list GitignoreRule) (segs : list string)
           (isDir : bool) : bool :=
  match find (fun r => ruleMatches r segs isDir) (rev rules) with
  | Some r => negb (negation r)
  | None => false
  end.

End Ignore.

(* ===================================================================== *)
(** ** src/gitignore-parser.ts *)
(* ===================================================================== *)

Module GitignoreParser.
Import Types Path Fs.

(** The object is its one field, [ig]; [ig] is its rule list. *)
Definition t : Type := list GitignoreRule.

Definition loadGitignore (fs : node) (projectRoot : path) (ig : t) : errno + t :=
  let gitignorePath := join projectRoot ".gitignore" in
  if existsSync fs gitignorePath then
    match readFileSync fs gitignorePath with
    | inr gitignoreContent => inr (Ignore.add ig gitignoreContent)
    | inl e => inl e
    end
  else inr ig.

(** [new GitignoreParser(projectRoot)]. *)
Definition new (fs : node) (projectRoot : path) : errno + t :=
  loadGitignore fs projectRoot Ignore.ignore.

Definition shouldIgnore (this : t) (filePath : string) : bool :=
  Ignore.ignores this filePath.

End GitignoreParser.

(* ===================================================================== *)
(** ** src/file-scanner.ts *)
(* ===================================================================== *)

Module FileScanner.
Import Types Path Fs Eff.
Local Open Scope eff_scope.

Section Scan.

(** The filesystem, and the two constructor arguments. *)
Variable fs : node.
Variable projectRoot : path.
Variable gitignoreParser : GitignoreParser.t.

(** The matcher is pure; the query is logged on the way. *)
Definition shouldIgnore (filePath : string) : eff bool :=
  tell (Query filePath) ;;;
  ret (GitignoreParser.shouldIgnore gitignoreParser filePath).

(** The body of the loop of [scanDirectory], for one [item] of the listing
    of [dir]; [recur] is the recursive call.  [files] is the array that
    [scanFiles] creates and every level of the recursion pushes onto; it is
    threaded through. *)
Definition visit (recur : path -> list path -> eff (list path))
           (dir : path) (item : string) (files : list path) : eff (list path) :=
  let fullPath := join dir item in
  let relativePath := relative projectRoot fullPath in
  ignored <- shouldIgnore relativePath ;;
  if (ignored : bool) then ret files
  else
    isDirectory <- call (Stat fullPath) (stat fs fullPath) ;;
    if (isDirectory : bool) then recur fullPath files
    else ret (files ++ [fullPath]).

(** [fuel] bounds the depth of the recursion. *)
Fixpoint scanDirectory (fuel : nat) (dir : path) (files : list path) : eff (list path) :=
  match fuel with
  | O => outOfFuel
  | S fuel' =>
      items <- call (Readdir dir) (readdir fs dir) ;;
      forOf items (visit (scanDirectory fuel') dir) files
  end.

Definition scanFiles (fuel : nat) : eff (list path) :=
  scanDirectory fuel projectRoot [].

End Scan.

End FileScanner.

(* ===================================================================== *)
(** ** src/zipper.ts *)
(* ===================================================================== *)

Module Zipper.
Import Types Path Fs Eff.
Local Open Scope eff_scope.

Definition mergeDefaultOptions (options : ZipOptions) : RequiredZipOptions :=
  {| rOutputPath := Js.or_string (outputPath options) "./dist";
     rOutputName := Js.or_string (outputName options) "project.zip";
     rIncludeHidden := Js.or_bool (includeHidden options) false;
     rCompressionLevel := Js.or_number (compressionLevel options) (Js.Int 6) |}.

Definition startsWithDot (part : string) : bool :=
  match part with
  | String "." _ => true
  | _ => false
  end.

Definition isHiddenFile (filePath : string) : bool :=
  existsb (fun part => startsWithDot part
                       && negb (String.eqb part ".")
                       && negb (String.eqb part ".."))
          (split "/" filePath).

(** What [archive.file(filePath, { name: relativePath, ... })] records. *)
Record entry : Type := mkEntry {
  file : path;
  name : string
}.

(** The text of [`${error}`] for a filesystem error, cut after its code
    (the message goes on with the call and the path). *)
Definition errnoText (e : errno) : string :=
  match e with
  | ENOENT => "Error: ENOENT"
  | ENOTDIR => "Error: ENOTDIR"
  | EACCES => "Error: EACCES"
  | EISDIR => "Error: EISDIR"
  end.

Section Zip.

Variable fs : node.
Variable projectRoot : path.
Variable options : RequiredZipOptions.
Variable gitignoreParser : GitignoreParser.t.

(** The archive is threaded through as the list of its entries. *)
Definition addFilesToArchive (archive : list entry) (files : list path) : eff (list entry) :=
  forOf files
    (fun filePath archive =>
       tryCatch
         (let relativePath := relative projectRoot filePath in
          if negb (rIncludeHidden options) && isHiddenFile relativePath then ret archive
          else
            present <- call (Exists filePath) (inr (existsSync fs filePath)) ;;
            if negb present then ret archive
            else
              isDirectory <- call (Stat filePath) (stat fs filePath) ;;
              if (isDirectory : bool) then ret archive
              else ret (archive ++ [mkEntry filePath relativePath]))
         (fun _ => ret archive))
    archive.

Definition getFileList (fuel : nat) : eff (list string) :=
  files <- FileScanner.scanFiles fs projectRoot gitignoreParser fuel ;;
  ret (map (relative projectRoot) files).

(** The block that makes sure the output directory exists and writes and
    removes a test file in it changes the filesystem and is not modelled
    further: [writeTest] gives the filesystem it leaves and the text of the
    error it caught, if any. *)
Variable writeTest : node -> node * option string.

Definition validateProject (fuel : nat) : eff (bool * list string) :=
  present <- call (Exists projectRoot) (inr (existsSync fs projectRoot)) ;;
  if negb present then ret (false, ["Project root directory does not exist"])
  else
    isDirectory <- call (Stat projectRoot) (stat fs projectRoot) ;;
    if negb isDirectory then ret (false, ["Project root is not a directory"])
    else
      let (fs', caught) := writeTest fs in
      let issues :=
        match caught with
        | Some error => [("Output directory is not writable: " ++ error)%string]
        | None => []
        end in
      issues <- tryCatch
                  (files <- FileScanner.scanFiles fs' projectRoot gitignoreParser fuel ;;
                   if Nat.eqb (List.length files) 0
                   then ret (issues ++ ["No files found to zip (all files may be ignored by .gitignore)"])
                   else ret issues)
                  (fun error => ret (issues ++ [("Error scanning files: " ++ errnoText error)%string])) ;;
      ret (Nat.eqb (List.length issues) 0, issues).

End Zip.

End Zipper.

(* ===================================================================== *)
(** ** Vocabulary of the properties *)
(* ===================================================================== *)

Module Observe.
Import Types Path Fs Eff.
Local Open Scope eff_scope.

(** The error of a logged filesystem call, if it failed. *)
Definition failure (fs : node) (ev : event) : option errno :=
  match ev with
  | Readdir d => match readdir fs d with inl e => Some e | inr _ => None end
  | Stat p => match stat fs p with inl e => Some e | inr _ => None end
  | Exists _ => None
  | Query _ => None
  end.

(** The strings the matcher was asked about, in order. *)
Definition queries (l : list event) : list string :=
  flat_map (fun ev => match ev with Query q => [q] | _ => [] end) l.

(** [rel], a path below the project root, passes the matcher at every
    level: neither it nor a directory above it is excluded when asked
    about the way the walker asks. *)
Definition passes (parser : GitignoreParser.t) (rel : list string) : Prop :=
  forall pre post, pre <> [] -> rel = pre ++ post ->
    GitignoreParser.shouldIgnore parser (String.concat sep pre) = false.

(** A failed call is the last thing that happens, and its error is the
    result. *)
Definition failFast (fs : node) {A : Type} (m : eff A) : Prop :=
  forall ev e, In ev (log m) -> failure fs ev = Some e -> result m = Thrown e.

(** What a scan may list or stat: only paths below the root that pass the
    matcher at every level. *)
Definition touchesOnlyPassing (projectRoot : path) (parser : GitignoreParser.t)
           (ev : event) : Prop :=
  match ev with
  | Readdir p | Stat p =>
      exists rel, p = projectRoot ++ rel /\ passes parser rel
  | _ => True
  end.

(** What the matcher may be asked: the root-relative path of an entry of
    the project tree [t]. *)
Definition asksBelow (t : node) (ev : event) : Prop :=
  match ev with
  | Query q =>
      exists rel, rel <> [] /\ q = String.concat sep rel /\ lookup t rel <> None
  | _ => True
  end.

(** Two runs that differ only in where the project root lies: the matcher
    is asked the same questions in the same order, and the runs end the
    same way, with the same root-relative paths pushed onto the arrays
    [files1] and [files2] they started from. *)
Definition sameRun (root1 root2 : path) (files1 files2 : list path)
           (m1 m2 : eff (list path)) : Prop :=
  queries (log m1) = queries (log m2)
  /\ match result m1, result m2 with
     | Value l1, Value l2 =>
         exists new : list (list string),
           l1 = files1 ++ map (app root1) new /\ l2 = files2 ++ map (app root2) new
     | Thrown e1, Thrown e2 => e1 = e2
     | OutOfFuel, OutOfFuel => True
     | _, _ => False
     end.

(** What [files.push] leaves in an array that held [files] when the pushes
    [o] were made on an empty one. *)
Definition extend (files : list path) (o : outcome (list path)) : outcome (list path) :=
  match o with
  | Value pushed => Value (files ++ pushed)
  | Thrown e => Thrown e
  | OutOfFuel => OutOfFuel
  end.

(** Two scans in a row by one [FileScanner]. *)
Definition scanTwice (fs : node) (projectRoot : path) (parser : GitignoreParser.t)
           (fuel : nat) : eff (list path * list path) :=
  first <- FileScanner.scanFiles fs projectRoot parser fuel ;;
  second <- FileScanner.scanFiles fs projectRoot parser fuel ;;
  ret (first, second).

End Observe.

(* ===================================================================== *)
(** ** Sample projects *)
(* ===================================================================== *)

Module Examples.
Import Types Path Fs.

(** A project whose [.gitignore] is the one line [build/]. *)
Definition withBuildRule : node :=
  Dir [("proj",
        Dir [(".gitignore", File "build/");
             ("build", Dir [("keep.txt", File "k"); ("out.bin", File "o")]);
             ("main.ts", File "m")])].

(** A project without rules in which one listed name cannot be stat-ed. *)
Definition withGoneEntry : node :=
  Dir [("proj",
        Dir [("a.txt", File "a");
             ("gone.txt", Gone);
             ("b.txt", File "b")])].

(** A project without rules, two levels deep. *)
Definition plain : node :=
  Dir [("home",
        Dir [("proj",
              Dir [("README.md", File "r");
                   ("src", Dir [("a.ts", File "a"); ("b.ts", File "b")]);
                   ("empty", Dir [])])])].

(** The same project, listed in another order. *)
Definition plainReordered : node :=
  Dir [("home",
        Dir [("proj",
              Dir [("src", Dir [("b.ts", File "b"); ("a.ts", File "a")]);
                   ("empty", Dir []);
                   ("README.md", File "r")])])].

(** The same project somewhere else on the disk. *)
Definition plainElsewhere : node :=
  Dir [("srv",
        Dir [("README.md", File "r");
             ("src", Dir [("a.ts", File "a"); ("b.ts", File "b")]);
             ("empty", Dir [])])].

End Examples.

(* ===================================================================== *)
(** ** What the walker and the archiver are expected to produce *)
(* ===================================================================== *)

Module Expect.
Import Types Path Fs Eff.

(** The root-relative paths of the files that a scan keeps below [n], when
    [n] sits at [rel] below the project root: depth first, in listing
    order, leaving out every entry about which [shouldIgnore], asked the
    way the walker asks (the bare root-relative path, also for a
    directory), answers true, and everything below such an entry. *)
Fixpoint kept (parser : GitignoreParser.t) (n : node) (rel : list string)
  : list (list string) :=
  match n with
  | File _ => [rel]
  | Sealed => [rel]
  | Dir entries =>
      flat_map (fun e =>
                  if GitignoreParser.shouldIgnore parser (String.concat sep (rel ++ [fst e]))
                  then []
                  else kept parser (snd e) (rel ++ [fst e]))
               entries
  | _ => []
  end.

(** Every entry below [n] about which [shouldIgnore], asked the way the
    walker asks, answers false (and so for every directory above it) can be
    stat-ed and, if a directory, listed. *)
Fixpoint reachable (parser : GitignoreParser.t) (n : node) (rel : list string) : bool :=
  match n with
  | File _ => true
  | Dir entries =>
      forallb (fun e =>
                 GitignoreParser.shouldIgnore parser (String.concat sep (rel ++ [fst e]))
                 || reachable parser (snd e) (rel ++ [fst e]))
              entries
  | Locked => false
  | Gone => false
  | Sealed => true
  end.

(** A path segment that makes a file hidden. *)
Definition hiddenName (part : string) : bool :=
  Zipper.startsWithDot part && negb (String.eqb part ".") && negb (String.eqb part "..").

(** The files that [addFilesToArchive] puts into the archive: not hidden
    (unless hidden files are asked for), present, and not a directory. *)
Definition archivable (fs : node) (projectRoot : path) (options : RequiredZipOptions)
           (filePath : path) : bool :=
  negb (negb (rIncludeHidden options) && Zipper.isHiddenFile (relative projectRoot filePath))
  && existsSync fs filePath
  && match stat fs filePath with
     | inr false => true
     | _ => false
     end.

(** The paths a run has stat-ed, and the directories it has listed, in
    order. *)
Definition statted (l : list event) : list path :=
  flat_map (fun ev => match ev with Stat p => [p] | _ => [] end) l.

Definition listed (l : list event) : list path :=
  flat_map (fun ev => match ev with Readdir d => [d] | _ => [] end) l.

(** The entry that [archive.file] records for a file. *)
Definition entryOf (projectRoot : path) (filePath : path) : Zipper.entry :=
  Zipper.mkEntry filePath (relative projectRoot filePath).

(** A [Required<ZipOptions>] read as a [ZipOptions]: every property is
    present. *)
Definition asOptions (r : RequiredZipOptions) : ZipOptions :=
  mkZipOptions (Some (rOutputPath r)) (Some (rOutputName r))
               (Some (rIncludeHidden r)) (Some (rCompressionLevel r)).

End Expect.

(* ===================================================================== *)
(** ** More sample projects *)
(* ===================================================================== *)

Module Samples.
Import Types Path Fs.

(** A project with a cache directory that cannot be listed and holds a
    name that cannot be stat-ed, a hidden directory, and two sources. *)
Definition withCache : node :=
  Dir [("proj",
        Dir [("cache", Locked);
             ("tmp", Dir [("lost", Gone)]);
             (".github", Dir [("ci.yml", File "c")]);
             ("src", Dir [("a.ts", File "a"); (".env", File "e")]);
             ("main.ts", File "m")])].

(** Rules that exclude [cache] and [tmp]. *)
Definition cacheRules : GitignoreParser.t :=
  [mkRule "cache" false false; mkRule "tmp" false false].

(** A project under the rules [/*], [!/src/], [!keep.md]: everything at the
    root is excluded, the directory [src] and the file [keep.md] are
    included again. *)
Definition whitelisted : node :=
  Dir [("proj",
        Dir [("keep.md", File "k");
             ("notes.txt", File "n");
             ("src", Dir [("a.ts", File "a")])])].

Definition whitelistRules : GitignoreParser.t :=
  Ignore.parseLines ["/*"; "!/src/"; "!keep.md"].

(** A project whose [.gitignore] cannot be read. *)
Definition gitignoreIsSealed : node :=
  Dir [("proj", Dir [(".gitignore", Sealed); ("main.ts", File "m")])].

(** A project whose [.gitignore] is a directory. *)
Definition gitignoreIsDirectory : node :=
  Dir [("proj", Dir [(".gitignore", Dir []); ("main.ts", File "m")])].

(** A project with a file and a directory that cannot be listed. *)
Definition lockedBelowRoot : node :=
  Dir [("proj", Dir [("a.txt", File "a"); ("secret", Locked)])].

End Samples.

(* ===================================================================== *)
(** ** src/zipper.ts: project statistics *)
(* ===================================================================== *)

Module Stats.
Import Types Path Fs Eff.
Local Open Scope eff_scope.

(** The part of a name from its last dot on, if it has a dot. *)
Fixpoint lastDotSuffix (s : string) : option string :=
  match s with
  | EmptyString => None
  | String c s' =>
      match lastDotSuffix s' with
      | Some suffix => Some suffix
      | None => if Ascii.eqb c "." then Some s else None
      end
  end.

(** [path.extname] on a base name: from the last dot to the end; empty
    when there is no dot, when the only dot is the first character, and
    for [..]. *)
Definition extnameBase (base : string) : string :=
  match lastDotSuffix base with
  | None => EmptyString
  | Some suffix =>
      if String.eqb suffix base then EmptyString
      else if String.eqb base ".." then EmptyString
      else suffix
  end.

(** [path.extname(file)] for a path built by the walker: the extension of
    its last segment. *)
Definition extname (file : path) : string := extnameBase (last file EmptyString).

(** [fileTypes[ext] = (fileTypes[ext] || 0) + 1] on an object used as a
    map, kept as the list of its own properties in insertion order.  The
    keys are ['no-extension'] or extensions, which start with a dot, so
    none meets a property inherited from [Object.prototype]. *)
Fixpoint bump (ext : string) (fileTypes : list (string * nat)) : list (string * nat) :=
  match fileTypes with
  | [] => [(ext, 1)]
  | (k, v) :: rest =>
      if String.eqb k ext then (k, S v) :: rest else (k, v) :: bump ext rest
  end.

(** [fileTypes[ext] || 0]. *)
Fixpoint count (ext : string) (fileTypes : list (string * nat)) : nat :=
  match fileTypes with
  | [] => 0
  | (k, v) :: rest => if String.eqb k ext then v else count ext rest
  end.

(** What [getProjectStats] resolves to.  Sizes are whole numbers of bytes;
    their sum is exact as long as it stays below 2^53. *)
Record projectStats : Type := mkStats {
  totalFiles : nat;
  totalSize : nat;
  fileTypes : list (string * nat);
  ignoredPatterns : list string
}.

Section GetProjectStats.

Variable fs : node.
Variable projectRoot : path.
Variable gitignoreParser : GitignoreParser.t.

(** [stats.size] of a path that can be stat-ed. *)
Variable size : path -> nat.

(** [String.prototype.toLowerCase]. *)
Variable toLowerCase : string -> string.

(** [path.extname(file).toLowerCase() || 'no-extension']. *)
Definition extOf (file : path) : string :=
  let ext := toLowerCase (extname file) in
  if String.eqb ext EmptyString then "no-extension" else ext.

Definition statSize (file : path) : errno + nat :=
  match stat fs file with
  | inl e => inl e
  | inr _ => inr (size file)
  end.

Definition getProjectStats (fuel : nat) : eff projectStats :=
  files <- FileScanner.scanFiles fs projectRoot gitignoreParser fuel ;;
  totals <- forOf files
              (fun file totals =>
                 tryCatch
                   (fileSize <- call (Stat file) (statSize file) ;;
                    ret (fst totals + fileSize, bump (extOf file) (snd totals)))
                   (fun _ => ret totals))
              (0, []) ;;
  ret (mkStats (List.length files) (fst totals) (snd totals) []).

End GetProjectStats.

End Stats.

(* ===================================================================== *)
(** * Properties *)
(* ===================================================================== *)

Import Types Path Fs Eff.
Local Open Scope eff_scope.
Unset Implicit Arguments.

(** ** The effect monad *)

Section EffFacts.

Context {A B : Type}.

Lemma log_bind (m : eff A) (k : A -> eff B) :
  log (bind m k)
  = match result m with
    | Value a => log m ++ log (k a)
    | _ => log m
    end.
Proof.
  destruct m as [l [a | e | ]]; cbn; try reflexivity.
  destruct (k a); reflexivity.
Qed.

Lemma result_bind (m : eff A) (k : A -> eff B) :
  result (bind m k)
  = match result m with
    | Value a => result (k a)
    | Thrown e => Thrown e
    | OutOfFuel => OutOfFuel
    end.
Proof.
  destruct m as [l [a | e | ]]; cbn; try reflexivity.
  destruct (k a); reflexivity.
Qed.


(** A property of every logged event passes through sequencing. *)
Lemma log_bind_Forall (P : event -> Prop) (m : eff A) (k : A -> eff B) :
  Forall P (log m) ->
  (forall a, result m = Value a -> Forall P (log (k a))) ->
  Forall P (log (bind m k)).
Proof.
  intros Hm Hk. rewrite log_bind.
  destruct (result m) eqn:E; auto.
  apply Forall_app; split; auto.
Qed.

End EffFacts.

Lemma log_forOf_Forall {A S : Type} (P : event -> Prop)
      (body : A -> S -> eff S) (items : list A) :
  (forall x s, In x items -> Forall P (log (body x s))) ->
  forall s, Forall P (log (forOf items body s)).
Proof.
  induction items as [| x rest IH]; intros Hbody s; cbn.
  - constructor.
  - apply log_bind_Forall.
    + apply Hbody; left; reflexivity.
    + intros s' _. apply IH. intros y s'' Hy. apply Hbody; right; exact Hy.
Qed.

Lemma log_tryCatch_Forall {A : Type} (P : event -> Prop)
      (m : eff A) (handler : errno -> eff A) :
  Forall P (log m) ->
  (forall e, Forall P (log (handler e))) ->
  Forall P (log (tryCatch m handler)).
Proof.
  intros Hm Hh. destruct m as [l [a | e | ]]; cbn in *; auto.
  specialize (Hh e). destruct (handler e) as [l' r]; cbn in *.
  apply Forall_app; split; auto.
Qed.

(** ** Option defaults (src/zipper.ts) *)

(** C10. [mergeDefaultOptions] uses [||]: a [compressionLevel] given as [0]
    becomes the default [6], one given in [1..9] is kept, and an
    [outputPath] or [outputName] given as the empty string becomes the
    default. *)
Theorem mergeDefaultOptions_falsy_values (options : ZipOptions) :
  (compressionLevel options = Some (Js.Int 0) ->
   rCompressionLevel (Zipper.mergeDefaultOptions options) = Js.Int 6)
  /\ (forall n : Z, (1 <= n <= 9)%Z ->
      compressionLevel options = Some (Js.Int n) ->
      rCompressionLevel (Zipper.mergeDefaultOptions options) = Js.Int n)
  /\ (outputPath options = Some EmptyString ->
      rOutputPath (Zipper.mergeDefaultOptions options) = "./dist")
  /\ (outputName options = Some EmptyString ->
      rOutputName (Zipper.mergeDefaultOptions options) = "project.zip").
Proof.
  unfold Zipper.mergeDefaultOptions; cbn.
  repeat split.
  - intros ->. reflexivity.
  - intros n Hn ->. cbn.
    destruct (Z.eqb_spec n 0) as [-> | _]; [lia | reflexivity].
  - intros ->. reflexivity.
  - intros ->. reflexivity.
Qed.

Lemma mergeDefaultOptions_falsy_values_witness :
  rCompressionLevel
    (Zipper.mergeDefaultOptions (mkZipOptions (Some EmptyString) (Some EmptyString) None (Some (Js.Int 0))))
  = Js.Int 6
  /\ rCompressionLevel
       (Zipper.mergeDefaultOptions (mkZipOptions None None (Some true) (Some (Js.Int 9))))
     = Js.Int 9
  /\ rOutputPath
       (Zipper.mergeDefaultOptions (mkZipOptions (Some EmptyString) (Some EmptyString) None (Some (Js.Int 0))))
     = "./dist"
  /\ rOutputName
       (Zipper.mergeDefaultOptions (mkZipOptions (Some EmptyString) (Some EmptyString) None (Some (Js.Int 0))))
     = "project.zip".
Proof.
  pose proof (mergeDefaultOptions_falsy_values
                (mkZipOptions (Some EmptyString) (Some EmptyString) None (Some (Js.Int 0))))
    as [H0 [_ [Hp Hn]]].
  pose proof (mergeDefaultOptions_falsy_values
                (mkZipOptions None None (Some true) (Some (Js.Int 9))))
    as [_ [H9 _]].
  split; [apply H0; reflexivity |].
  split; [apply (H9 9%Z); [lia | reflexivity] |].
  split; [apply Hp; reflexivity | apply Hn; reflexivity].
Defined.

(** ** The matcher *)

Lemma excludedBelow_no_rules (above below : list string) (isDir : bool) :
  Ignore.excludedBelow [] above below isDir = false.
Proof.
  revert above; induction below as [| s rest IH]; intros above; cbn.
  - reflexivity.
  - destruct rest as [| s' rest']; [reflexivity |]. apply IH.
Qed.

Lemma ignores_no_rules (filePath : string) :
  Ignore.ignores [] filePath = false.
Proof.
  unfold Ignore.ignores, Ignore.isExcluded.
  destruct (String.eqb filePath EmptyString); [reflexivity |].
  apply excludedBelow_no_rules.
Qed.

(** C7. When there is no [.gitignore] at the project root, the constructor
    of [GitignoreParser] succeeds, no rule is added, and [shouldIgnore] is
    false for every path. *)
Theorem missing_gitignore_excludes_nothing (fs : node) (projectRoot : path) :
  existsSync fs (join projectRoot ".gitignore") = false ->
  exists parser : GitignoreParser.t,
    GitignoreParser.new fs projectRoot = inr parser
    /\ parser = []
    /\ forall filePath : string, GitignoreParser.shouldIgnore parser filePath = false.
Proof.
  intros Habsent. exists [].
  unfold GitignoreParser.new, GitignoreParser.loadGitignore.
  rewrite Habsent. repeat split.
  intros filePath. apply ignores_no_rules.
Qed.

Lemma missing_gitignore_excludes_nothing_witness :
  exists parser : GitignoreParser.t,
    GitignoreParser.new (Dir [("proj", Dir [("a.txt", File "a")])]) ["proj"] = inr parser
    /\ parser = []
    /\ forall filePath : string, GitignoreParser.shouldIgnore parser filePath = false.
Proof.
  apply (missing_gitignore_excludes_nothing (Dir [("proj", Dir [("a.txt", File "a")])]) ["proj"]).
  reflexivity.
Defined.

(** ** The walker: failures *)

Lemma scanFiles_unlistable_root (fs : node) (projectRoot : path)
      (parser : GitignoreParser.t) (fuel : nat) (e : errno) :
  readdir fs projectRoot = inl e ->
  FileScanner.scanFiles fs projectRoot parser (S fuel) = ([Readdir projectRoot], Thrown e).
Proof.
  intros H. unfold FileScanner.scanFiles; cbn. rewrite H. reflexivity.
Qed.

Lemma stat_not_directory_readdir (fs : node) (p : path) :
  stat fs p <> inr true -> exists e, readdir fs p = inl e.
Proof.
  unfold stat, readdir.
  destruct (lookup fs p) as [[c | es | | | ] |]; intros H; eauto.
  all: exfalso; apply H; reflexivity.
Qed.

(** C5. When the project root does not exist or is not a directory, a scan
    ends in an exception, whatever the rules; it never resolves to a list,
    empty or not.  [validateProject] reports the same two conditions as
    issues of an invalid project. *)
Theorem scan_of_missing_root_fails (fs : node) (projectRoot : path)
        (parser : GitignoreParser.t) :
  stat fs projectRoot <> inr true ->
  (forall fuel, exists e : errno,
      result (FileScanner.scanFiles fs projectRoot parser (S fuel)) = Thrown e)
  /\ (forall fuel files,
      result (FileScanner.scanFiles fs projectRoot parser fuel) <> Value files)
  /\ (forall writeTest fuel,
      exists issue : string,
        In issue ["Project root directory does not exist"; "Project root is not a directory"]
        /\ result (Zipper.validateProject fs projectRoot parser writeTest fuel)
           = Value (false, [issue])).
Proof.
  intros Hroot.
  destruct (stat_not_directory_readdir fs projectRoot Hroot) as [e He].
  split; [| split].
  - intros fuel. exists e. rewrite (scanFiles_unlistable_root _ _ _ _ _ He). reflexivity.
  - intros [| fuel] files.
    + cbn. discriminate.
    + rewrite (scanFiles_unlistable_root _ _ _ _ _ He). cbn. discriminate.
  - intros writeTest fuel. unfold Zipper.validateProject, existsSync.
    remember (stat fs projectRoot) as st eqn:Est.
    destruct st as [e' | [|]] eqn:Hs.
    + eexists. split; [| reflexivity]. left; reflexivity.
    + exfalso. apply Hroot. reflexivity.
    + eexists. split; [| cbn; rewrite Hs; reflexivity]. right; left; reflexivity.
Qed.

Lemma scan_of_missing_root_fails_witness :
  stat (Dir [("home", Dir [])]) ["home"; "proj"] <> inr true
  /\ (forall fuel, exists e : errno,
       result (FileScanner.scanFiles (Dir [("home", Dir [])]) ["home"; "proj"] [] (S fuel))
       = Thrown e)
  /\ (forall fuel files,
       result (FileScanner.scanFiles (Dir [("home", Dir [])]) ["home"; "proj"] [] fuel)
       <> Value files).
Proof.
  assert (H : stat (Dir [("home", Dir [])]) ["home"; "proj"] <> inr true)
    by (cbn; discriminate).
  split; [exact H |].
  pose proof (scan_of_missing_root_fails (Dir [("home", Dir [])]) ["home"; "proj"] [] H)
    as [H1 [H2 _]].
  split; assumption.
Defined.

(** ** The matcher: order of rules and excluded directories *)

Section MatcherFacts.

Variable rules : list GitignoreRule.

(** The running verdict of [testOne] is the verdict of the last matching
    rule. *)
Lemma testOne_snoc (r : GitignoreRule) (segs : list string) (isDir : bool) :
  Ignore.testOne (rules ++ [r]) segs isDir
  = if Ignore.ruleMatches r segs isDir then negb (negation r)
    else Ignore.testOne rules segs isDir.
Proof. unfold Ignore.testOne. rewrite fold_left_app. reflexivity. Qed.

Lemma excludedBelow_parent (above d rest : list string) (isDir : bool) :
  d <> [] -> rest <> [] ->
  Ignore.excludedBelow rules above d true = true ->
  Ignore.excludedBelow rules above (d ++ rest) isDir = true.
Proof.
  revert above. induction d as [| s d' IH]; intros above Hd Hrest Hex.
  - contradiction.
  - destruct d' as [| s' d''].
    + cbn in Hex. cbn. destruct rest as [| t rest']; [contradiction |].
      rewrite Hex. reflexivity.
    + cbn in Hex. cbn.
      destruct (Ignore.testOne rules (above ++ [s]) true); [reflexivity |].
      apply (IH (above ++ [s])); [discriminate | assumption | assumption].
Qed.

Lemma excludedBelow_free (above below : list string) (isDir : bool) :
  below <> [] ->
  (forall d rest, d <> [] -> rest <> [] -> below = d ++ rest ->
                  Ignore.excludedBelow rules above d true = false) ->
  Ignore.excludedBelow rules above below isDir
  = Ignore.testOne rules (above ++ below) isDir.
Proof.
  revert above. induction below as [| s rest IH]; intros above Hne Hfree.
  - contradiction.
  - destruct rest as [| t rest'].
    + reflexivity.
    + assert (Hs : Ignore.testOne rules (above ++ [s]) true = false).
      { apply (Hfree [s] (t :: rest')); [discriminate | discriminate | reflexivity]. }
      change (Ignore.excludedBelow rules above (s :: t :: rest') isDir)
        with (if Ignore.testOne rules (above ++ [s]) true then true
              else Ignore.excludedBelow rules (above ++ [s]) (t :: rest') isDir).
      rewrite Hs, (IH (above ++ [s])).
      * rewrite <- app_assoc. reflexivity.
      * discriminate.
      * intros d rest Hd Hrest Heq.
        specialize (Hfree (s :: d) rest).
        destruct d as [| u d']; [contradiction |].
        cbn in Hfree. rewrite Hs in Hfree.
        apply Hfree; [discriminate | assumption | rewrite Heq; reflexivity].
Qed.

End MatcherFacts.

Lemma testOne_lastMatchVerdict (rules : list GitignoreRule)
      (segs : list string) (isDir : bool) :
  Ignore.testOne rules segs isDir = Ignore.lastMatchVerdict rules segs isDir.
Proof.
  induction rules as [| r rules' IH] using rev_ind.
  - reflexivity.
  - rewrite testOne_snoc. unfold Ignore.lastMatchVerdict.
    rewrite rev_app_distr. cbn.
    destruct (Ignore.ruleMatches r segs isDir); [reflexivity |].
    exact IH.
Qed.

Lemma split_nonempty (c : ascii) (s : string) : split c s <> [].
Proof.
  destruct s as [| a s']; cbn; [discriminate |].
  destruct (Ascii.eqb a c); [discriminate |].
  destruct (split c s'); discriminate.
Qed.

Lemma split_single_empty (c : ascii) (s : string) :
  split c s = [EmptyString] -> s = EmptyString.
Proof.
  destruct s as [| a s']; cbn; [reflexivity |].
  destruct (Ascii.eqb a c).
  - intros H. injection H as H. exfalso. exact (split_nonempty _ _ H).
  - destruct (split c s'); discriminate.
Qed.

Lemma candidate_nonempty (filePath : string) :
  filePath <> EmptyString -> fst (Ignore.candidate filePath) <> [].
Proof.
  intros Hne. unfold Ignore.candidate.
  pose proof (split_nonempty "/" filePath) as Hs.
  pose proof (split_single_empty "/" filePath) as Hs1.
  destruct (split "/" filePath) as [| w [| w' ws]] eqn:E.
  - contradiction.
  - cbn. destruct (String.eqb_spec w EmptyString) as [-> | _]; cbn.
    + exfalso. apply Hne, Hs1. reflexivity.
    + discriminate.
  - destruct (String.eqb (last (w :: w' :: ws) EmptyString) EmptyString); cbn; discriminate.
Qed.

(** C1 (as amended). For a path none of whose ancestor directories is
    excluded, the verdict of the matcher is that of the last rule in file
    order that matches the path, and "included" when no rule matches.  With
    the rules [*.log], [!important.log], [important.log] is included and
    [debug.log] is excluded. *)
Theorem last_match_wins_below_included_parents :
  (forall (rules : list GitignoreRule) (filePath : string),
      filePath <> EmptyString ->
      (forall d rest, d <> [] -> rest <> [] ->
                      fst (Ignore.candidate filePath) = d ++ rest ->
                      Ignore.isExcluded rules d true = false) ->
      GitignoreParser.shouldIgnore rules filePath
      = Ignore.lastMatchVerdict rules (fst (Ignore.candidate filePath))
                                (snd (Ignore.candidate filePath)))
  /\ GitignoreParser.shouldIgnore
       (Ignore.parseLines ["*.log"; "!important.log"]) "important.log" = false
  /\ GitignoreParser.shouldIgnore
       (Ignore.parseLines ["*.log"; "!important.log"]) "debug.log" = true.
Proof.
  split; [| split; reflexivity].
  intros rules filePath Hne Hfree.
  unfold GitignoreParser.shouldIgnore, Ignore.ignores.
  destruct (String.eqb_spec filePath EmptyString) as [Heq | _]; [contradiction |].
  unfold Ignore.isExcluded.
  rewrite excludedBelow_free.
  - apply testOne_lastMatchVerdict.
  - apply candidate_nonempty; assumption.
  - exact Hfree.
Qed.

Lemma last_match_wins_below_included_parents_witness :
  GitignoreParser.shouldIgnore
    (Ignore.parseLines ["*.log"; "!src/important.log"]) "src/important.log"
  = Ignore.lastMatchVerdict (Ignore.parseLines ["*.log"; "!src/important.log"])
                            ["src"; "important.log"] false.
Proof.
  apply (proj1 last_match_wins_below_included_parents
               (Ignore.parseLines ["*.log"; "!src/important.log"]) "src/important.log").
  - discriminate.
  - intros [| a [| b d]] [| c rest] Hd Hrest Heq;
      try contradiction; cbn in Heq; try discriminate.
    + injection Heq as <- _. reflexivity.
    + injection Heq as _ _ Heq. destruct d; discriminate.
Defined.

(** The claim C1 as it is written, for every path, fails: below an excluded
    directory the last matching rule may be a negated one, and the path
    stays excluded. *)
Lemma last_match_wins_counterexample :
  GitignoreParser.shouldIgnore
    (Ignore.parseLines ["build/"; "!build/keep.txt"]) "build/keep.txt"
  <> Ignore.lastMatchVerdict
       (Ignore.parseLines ["build/"; "!build/keep.txt"])
       (fst (Ignore.candidate "build/keep.txt"))
       (snd (Ignore.candidate "build/keep.txt")).
Proof. vm_compute. discriminate. Qed.

(** C2. When a directory is excluded, every path inside it is excluded,
    whatever rules follow: a negated rule that matches the path does not
    bring it back.  With the rules [build/], [!build/keep.txt],
    [build/keep.txt] is excluded. *)
Theorem negation_cannot_reinclude_below_excluded_directory :
  (forall (rules : list GitignoreRule) (d rest : list string) (isDir : bool),
      d <> [] -> rest <> [] ->
      Ignore.isExcluded rules d true = true ->
      Ignore.isExcluded rules (d ++ rest) isDir = true)
  /\ GitignoreParser.shouldIgnore
       (Ignore.parseLines ["build/"; "!build/keep.txt"]) "build/keep.txt" = true.
Proof.
  split; [| reflexivity].
  intros rules d rest isDir Hd Hrest Hex.
  apply excludedBelow_parent; assumption.
Qed.

Lemma negation_cannot_reinclude_below_excluded_directory_witness :
  Ignore.isExcluded (Ignore.parseLines ["out/"; "!out/lib/keep.txt"]) ["out"] true = true
  /\ Ignore.ruleMatches (mkRule "out/lib/keep.txt" true false) ["out"; "lib"; "keep.txt"] false = true
  /\ Ignore.isExcluded (Ignore.parseLines ["out/"; "!out/lib/keep.txt"])
                       (["out"] ++ ["lib"; "keep.txt"]) false = true.
Proof.
  split; [reflexivity |]. split; [reflexivity |].
  apply (proj1 negation_cannot_reinclude_below_excluded_directory).
  - discriminate.
  - discriminate.
  - reflexivity.
Defined.

(** ** The walker: what a scan touches *)

Lemma relativeSegs_below (root rel : path) :
  relativeSegs root (root ++ rel) = rel.
Proof.
  induction root as [| s root' IH]; cbn.
  - destruct rel; reflexivity.
  - rewrite String.eqb_refl. exact IH.
Qed.

Lemma relative_below (root rel : path) :
  relative root (root ++ rel) = String.concat sep rel.
Proof. unfold relative. rewrite relativeSegs_below. reflexivity. Qed.

Lemma passes_nil (parser : GitignoreParser.t) : Observe.passes parser [].
Proof.
  intros pre post Hpre Heq. symmetry in Heq.
  apply app_eq_nil in Heq. destruct Heq; contradiction.
Qed.

Lemma passes_snoc (parser : GitignoreParser.t) (rel : list string) (item : string) :
  Observe.passes parser rel ->
  GitignoreParser.shouldIgnore parser (String.concat sep (rel ++ [item])) = false ->
  Observe.passes parser (rel ++ [item]).
Proof.
  intros Hrel Hitem pre post Hpre Heq.
  destruct post as [| x post'] using rev_ind.
  - rewrite app_nil_r in Heq. subst pre. exact Hitem.
  - rewrite app_assoc in Heq. apply app_inj_tail in Heq. destruct Heq as [Heq _].
    apply (Hrel pre post'); assumption.
Qed.

Section WalkerFacts.

Variable fs : node.
Variable projectRoot : path.
Variable parser : GitignoreParser.t.

Local Notation "'scanDirectory'" := (FileScanner.scanDirectory fs projectRoot parser).
Local Notation "'visit'" := (FileScanner.visit fs projectRoot parser).

Lemma scanDirectory_S (fuel : nat) (dir : path) (files : list path) :
  scanDirectory (S fuel) dir files
  = (items <- call (Readdir dir) (readdir fs dir) ;;
     forOf items (visit (scanDirectory fuel) dir) files).
Proof. reflexivity. Qed.

Lemma visit_touchesOnlyPassing
      (recur : path -> list path -> eff (list path)) (rel : list string)
      (item : string) (files : list path) :
  Observe.passes parser rel ->
  (forall files', Observe.passes parser (rel ++ [item]) ->
                  Forall (Observe.touchesOnlyPassing projectRoot parser)
                         (log (recur (projectRoot ++ rel ++ [item]) files'))) ->
  Forall (Observe.touchesOnlyPassing projectRoot parser) (log (visit recur (projectRoot ++ rel) item files)).
Proof.
  intros Hrel Hrecur. unfold FileScanner.visit, join.
  rewrite <- app_assoc, relative_below.
  apply log_bind_Forall.
  - cbn. repeat constructor.
  - intros ignored Hq. cbn in Hq. injection Hq as <-.
    destruct (GitignoreParser.shouldIgnore parser (String.concat sep (rel ++ [item])))
      eqn:Hig.
    + constructor.
    + pose proof (passes_snoc parser rel item Hrel Hig) as Hpass.
      apply log_bind_Forall.
      * destruct (stat fs (projectRoot ++ rel ++ [item])); cbn;
          repeat constructor; exists (rel ++ [item]); auto.
      * intros [|] _; [apply Hrecur; assumption | constructor].
Qed.

Lemma scanDirectory_touchesOnlyPassing (fuel : nat) :
  forall (rel : list string) (files : list path),
    Observe.passes parser rel ->
    Forall (Observe.touchesOnlyPassing projectRoot parser) (log (scanDirectory fuel (projectRoot ++ rel) files)).
Proof.
  induction fuel as [| fuel IH]; intros rel files Hrel.
  - constructor.
  - rewrite scanDirectory_S. apply log_bind_Forall.
    + destruct (readdir fs (projectRoot ++ rel)); cbn;
        repeat constructor; exists rel; auto.
    + intros items _. apply log_forOf_Forall. intros item files' _.
      apply visit_touchesOnlyPassing; [assumption |].
      intros files'' Hpass. apply IH. exact Hpass.
Qed.

(** The walker prunes wherever its own query says "excluded": a directory
    is listed only if the matcher, asked about its root-relative path and
    about that of every directory between it and the root, answered
    "included". *)
Lemma scan_lists_only_passing_directories (fuel : nat) (dir : path) :
  In (Readdir dir) (log (FileScanner.scanFiles fs projectRoot parser fuel)) ->
  exists rel, dir = projectRoot ++ rel /\ Observe.passes parser rel.
Proof.
  intros Hin.
  pose proof (scanDirectory_touchesOnlyPassing fuel [] [] (passes_nil parser)) as H.
  rewrite app_nil_r in H. rewrite Forall_forall in H.
  exact (H _ Hin).
Qed.

End WalkerFacts.

(** C3. The walker asks the matcher about a directory by its bare
    root-relative path, before it knows that the entry is a directory.  In
    the project whose only rule is [build/], the matcher excludes the
    directory [build] (asked about it as a directory) and both files in it,
    yet the scan reads the entries of [build]: it asks about ["build"], is
    told "included", and descends. *)
Theorem directory_only_rule_is_not_pruned :
  GitignoreParser.new Examples.withBuildRule ["proj"]
  = inr [mkRule "build" false true]
  /\ Ignore.isExcluded [mkRule "build" false true] ["build"] true = true
  /\ GitignoreParser.shouldIgnore [mkRule "build" false true] "build/" = true
  /\ GitignoreParser.shouldIgnore [mkRule "build" false true] "build" = false
  /\ In (Readdir ["proj"; "build"])
        (log (FileScanner.scanFiles Examples.withBuildRule ["proj"]
                                    [mkRule "build" false true] 2))
  /\ FileScanner.scanFiles Examples.withBuildRule ["proj"] [mkRule "build" false true] 2
     = ([Readdir ["proj"];
         Query ".gitignore"; Stat ["proj"; ".gitignore"];
         Query "build"; Stat ["proj"; "build"]; Readdir ["proj"; "build"];
         Query "build/keep.txt"; Query "build/out.bin";
         Query "main.ts"; Stat ["proj"; "main.ts"]],
        Value [["proj"; ".gitignore"]; ["proj"; "main.ts"]]).
Proof.
  repeat split; try reflexivity.
  vm_compute. right; right; right; right; right; left; reflexivity.
Qed.

(** ** The walker: a failing entry *)

Section FailureFacts.

Variable fs : node.

Local Notation "'failFast'" := (Observe.failFast fs).

Lemma failFast_bind {A B : Type} (m : eff A) (k : A -> eff B) :
  failFast m -> (forall a, failFast (k a)) -> failFast (bind m k).
Proof.
  intros Hm Hk ev e Hin Hfail.
  rewrite log_bind in Hin. rewrite result_bind.
  destruct (result m) as [a | e' | ] eqn:Hr.
  - apply in_app_or in Hin. destruct Hin as [Hin | Hin].
    + specialize (Hm ev e Hin Hfail). congruence.
    + exact (Hk a ev e Hin Hfail).
  - specialize (Hm ev e Hin Hfail). congruence.
  - specialize (Hm ev e Hin Hfail). congruence.
Qed.

Lemma failFast_forOf {A S : Type} (body : A -> S -> eff S) (items : list A) :
  (forall x s, failFast (body x s)) -> forall s, failFast (forOf items body s).
Proof.
  intros Hbody. induction items as [| x rest IH]; intros s; cbn.
  - intros ev e [].
  - apply failFast_bind; [apply Hbody | exact IH].
Qed.

Lemma failFast_readdir (dir : path) : failFast (call (Readdir dir) (readdir fs dir)).
Proof.
  intros ev e Hin Hfail.
  destruct (readdir fs dir) as [e' | items] eqn:Hr; cbn in *;
    destruct Hin as [<- | []]; cbn in Hfail; rewrite Hr in Hfail; congruence.
Qed.

Lemma failFast_stat (p : path) : failFast (call (Stat p) (stat fs p)).
Proof.
  intros ev e Hin Hfail.
  destruct (stat fs p) as [e' | b] eqn:Hr; cbn in *;
    destruct Hin as [<- | []]; cbn in Hfail; rewrite Hr in Hfail; congruence.
Qed.

Lemma failFast_scanDirectory (projectRoot : path) (parser : GitignoreParser.t)
      (fuel : nat) :
  forall dir files,
    failFast (FileScanner.scanDirectory fs projectRoot parser fuel dir files).
Proof.
  induction fuel as [| fuel IH]; intros dir files.
  - intros ev e [].
  - rewrite scanDirectory_S. apply failFast_bind; [apply failFast_readdir |].
    intros items. apply failFast_forOf. intros item files'.
    unfold FileScanner.visit. apply failFast_bind.
    + intros ev e Hin Hfail. cbn in Hin. destruct Hin as [<- | []]. discriminate.
    + intros [|]; [intros ev e [] |].
      apply failFast_bind; [apply failFast_stat |].
      intros [|]; [apply IH | intros ev e []].
Qed.

End FailureFacts.

(** C4 (as amended). A scan has no error handling of its own: when a
    [readdir] or [stat] call that the scan makes fails, the scan as a whole
    ends with that error, and no file list is returned. *)
Theorem scan_fails_with_first_failure (fs : node) (projectRoot : path)
        (parser : GitignoreParser.t) (fuel : nat) (ev : event) (e : errno) :
  In ev (log (FileScanner.scanFiles fs projectRoot parser fuel)) ->
  Observe.failure fs ev = Some e ->
  result (FileScanner.scanFiles fs projectRoot parser fuel) = Thrown e
  /\ forall files,
      result (FileScanner.scanFiles fs projectRoot parser fuel) <> Value files.
Proof.
  intros Hin Hfail.
  pose proof (failFast_scanDirectory fs projectRoot parser fuel projectRoot [] ev e Hin Hfail)
    as H.
  split; [exact H |].
  intros files Hv. unfold FileScanner.scanFiles in Hv. congruence.
Qed.

Lemma scan_fails_with_first_failure_witness :
  In (Stat ["proj"; "gone.txt"])
     (log (FileScanner.scanFiles Examples.withGoneEntry ["proj"] [] 2))
  /\ Observe.failure Examples.withGoneEntry (Stat ["proj"; "gone.txt"]) = Some ENOENT
  /\ result (FileScanner.scanFiles Examples.withGoneEntry ["proj"] [] 2) = Thrown ENOENT
  /\ forall files,
      result (FileScanner.scanFiles Examples.withGoneEntry ["proj"] [] 2) <> Value files.
Proof.
  assert (Hin : In (Stat ["proj"; "gone.txt"])
                   (log (FileScanner.scanFiles Examples.withGoneEntry ["proj"] [] 2))).
  { vm_compute. right; right; right; right; left; reflexivity. }
  split; [exact Hin |]. split; [reflexivity |].
  apply (scan_fails_with_first_failure Examples.withGoneEntry ["proj"] [] 2
                                       (Stat ["proj"; "gone.txt"]) ENOENT Hin).
  reflexivity.
Defined.

(** The claim C4 as it is written fails: one entry that cannot be stat-ed
    makes the scan reject, although two files next to it can be read. *)
Lemma scan_tolerates_failures_counterexample :
  stat Examples.withGoneEntry ["proj"; "a.txt"] = inr false
  /\ stat Examples.withGoneEntry ["proj"; "b.txt"] = inr false
  /\ stat Examples.withGoneEntry ["proj"; "gone.txt"] = inl ENOENT
  /\ ~ (exists fuel files,
         result (FileScanner.scanFiles Examples.withGoneEntry ["proj"] [] fuel)
         = Value files).
Proof.
  repeat split.
  intros [[| [| fuel]] [files H]].
  - discriminate.
  - discriminate.
  - assert (Hin : In (Stat ["proj"; "gone.txt"])
                     (log (FileScanner.scanFiles Examples.withGoneEntry ["proj"] [] (S (S fuel))))).
    { cbn. right; right; right; right; left; reflexivity. }
    pose proof (failFast_scanDirectory Examples.withGoneEntry ["proj"] [] (S (S fuel))
                                       ["proj"] [] _ ENOENT Hin eq_refl) as Hf.
    unfold FileScanner.scanFiles in H. congruence.
Qed.

(** ** Directory trees *)

(** Induction on a tree, with the entries of a directory as hypotheses. *)
Lemma node_tree_ind (P : node -> Prop) :
  (forall content, P (File content)) ->
  (forall entries, Forall (fun e => P (snd e)) entries -> P (Dir entries)) ->
  P Locked -> P Gone -> P Sealed ->
  forall n, P n.
Proof.
  intros HFile HDir HLocked HGone HSealed.
  fix IH 1. intros [content | entries | | | ].
  - apply HFile.
  - apply HDir. induction entries as [| [s x] rest IHrest].
    + constructor.
    + constructor; [apply IH | exact IHrest].
  - exact HLocked.
  - exact HGone.
  - exact HSealed.
Qed.

Lemma lookup_app (fs : node) (p q : path) :
  lookup fs (p ++ q)
  = match lookup fs p with
    | Some n => lookup n q
    | None => None
    end.
Proof.
  revert fs. induction p as [| s p' IH]; intros fs; cbn.
  - reflexivity.
  - destruct fs as [c | es | | | ]; try reflexivity.
    destruct (assoc s es) as [child |]; [apply IH | reflexivity].
Qed.

Lemma assoc_In (name : string) (entries : list (string * node)) (x : node) :
  assoc name entries = Some x -> In (name, x) entries.
Proof.
  induction entries as [| [s y] rest IH]; cbn; [discriminate |].
  destruct (String.eqb_spec s name) as [-> | _].
  - intros H; injection H as ->. left; reflexivity.
  - intros H. right. exact (IH H).
Qed.

Lemma distinct_notin (s : string) (names : list string) :
  existsb (String.eqb s) names = false -> ~ In s names.
Proof.
  intros H Hin.
  assert (Ht : existsb (String.eqb s) names = true).
  { apply existsb_exists. exists s. split; [exact Hin | apply String.eqb_refl]. }
  congruence.
Qed.

Lemma distinct_NoDup (names : list string) :
  distinct names = true -> NoDup names.
Proof.
  induction names as [| s rest IH]; cbn; intros H.
  - constructor.
  - apply andb_prop in H. destruct H as [Hs Hrest].
    constructor; [| exact (IH Hrest)].
    apply distinct_notin. destruct (existsb (String.eqb s) rest); [discriminate | reflexivity].
Qed.

Lemma assoc_distinct (name : string) (entries : list (string * node)) (x : node) :
  distinct (map fst entries) = true ->
  In (name, x) entries -> assoc name entries = Some x.
Proof.
  induction entries as [| [s y] rest IH]; cbn; intros Hd Hin; [contradiction |].
  apply andb_prop in Hd. destruct Hd as [Hs Hrest].
  destruct Hin as [Heq | Hin].
  - injection Heq as -> ->. rewrite String.eqb_refl. reflexivity.
  - destruct (String.eqb_spec s name) as [-> | _]; [| exact (IH Hrest Hin)].
    exfalso. apply (distinct_notin name (map fst rest)).
    + destruct (existsb (String.eqb name) (map fst rest)); [discriminate | reflexivity].
    + change name with (fst (name, x)). apply in_map. exact Hin.
Qed.

Lemma wellFormed_Dir (entries : list (string * node)) :
  wellFormed (Dir entries) = true ->
  distinct (map fst entries) = true
  /\ forall e, In e entries -> nameOk (fst e) = true /\ wellFormed (snd e) = true.
Proof.
  cbn. intros H. apply andb_prop in H. destruct H as [Hd Hall].
  split; [exact Hd |].
  intros e He. rewrite forallb_forall in Hall.
  specialize (Hall e He). apply andb_prop in Hall. exact Hall.
Qed.

Lemma readable_Dir (entries : list (string * node)) :
  readable (Dir entries) = true ->
  forall e, In e entries -> readable (snd e) = true.
Proof. cbn. intros H e He. rewrite forallb_forall in H. exact (H e He). Qed.

Lemma height_entry (entries : list (string * node)) (e : string * node) :
  In e entries -> S (height (snd e)) <= height (Dir entries).
Proof.
  intros He. cbn. apply le_n_S.
  induction entries as [| e' rest IH]; [contradiction |].
  cbn. destruct He as [-> | He].
  - apply Nat.le_max_l.
  - etransitivity; [exact (IH He) | apply Nat.le_max_r].
Qed.

(** Every path of [filesUnder n at_] lies below [at_]. *)
Lemma filesUnder_below (n : node) :
  forall at_ p, In p (filesUnder n at_) -> exists rel, p = at_ ++ rel.
Proof.
  induction n as [c | entries IH | | | ] using node_tree_ind; intros at_ p Hin; cbn in Hin.
  - destruct Hin as [<- | []]. exists []. rewrite app_nil_r. reflexivity.
  - apply in_flat_map in Hin. destruct Hin as [e [He Hp]].
    rewrite Forall_forall in IH.
    destruct (IH e He _ _ Hp) as [rel ->].
    exists (fst e :: rel). rewrite <- app_assoc. reflexivity.
  - contradiction.
  - contradiction.
  - destruct Hin as [<- | []]. exists []. rewrite app_nil_r. reflexivity.
Qed.

Lemma stat_cons (entries : list (string * node)) (s : string) (rel : list string) :
  stat (Dir entries) (s :: rel)
  = match assoc s entries with
    | Some x => stat x rel
    | None => inl ENOENT
    end.
Proof. unfold stat. cbn. destruct (assoc s entries); reflexivity. Qed.

(** [filesUnder] lists exactly the paths that [stat] reports as files. *)
Lemma filesUnder_lookup (n : node) :
  wellFormed n = true ->
  forall at_ p,
    In p (filesUnder n at_)
    <-> exists rel, p = at_ ++ rel /\ stat n rel = inr false.
Proof.
  induction n as [c | entries IH | | | ] using node_tree_ind; intros Hwf at_ p.
  - cbn. split.
    + intros [<- | []]. exists []. rewrite app_nil_r. split; reflexivity.
    + intros [rel [-> Hl]]. destruct rel as [| s rel']; [| discriminate].
      left. rewrite app_nil_r. reflexivity.
  - destruct (wellFormed_Dir entries Hwf) as [Hd Hall].
    rewrite Forall_forall in IH. cbn [filesUnder]. rewrite in_flat_map. split.
    + intros [[s x] [He Hp]]. cbn in Hp.
      apply (IH (s, x) He (proj2 (Hall _ He))) in Hp.
      destruct Hp as [rel [-> Hl]].
      exists (s :: rel). split.
      * rewrite <- app_assoc. reflexivity.
      * rewrite stat_cons, (assoc_distinct s entries x Hd He). exact Hl.
    + intros [rel [-> Hl]].
      destruct rel as [| s rel']; [discriminate |].
      rewrite stat_cons in Hl.
      destruct (assoc s entries) as [x |] eqn:Ha; [| discriminate].
      apply assoc_In in Ha. exists (s, x). split; [exact Ha |].
      apply (IH (s, x) Ha (proj2 (Hall _ Ha))).
      exists rel'. split; [| exact Hl].
      cbn. rewrite <- app_assoc. reflexivity.
  - cbn. split; [contradiction |].
    intros [rel [_ Hl]]. destruct rel; discriminate.
  - cbn. split; [contradiction |].
    intros [rel [_ Hl]]. destruct rel; discriminate.
  - cbn. split.
    + intros [<- | []]. exists []. rewrite app_nil_r. split; reflexivity.
    + intros [rel [-> Hl]]. destruct rel as [| s rel']; [| discriminate].
      left. rewrite app_nil_r. reflexivity.
Qed.

Lemma NoDup_flat_map_entries (at_ : path) (entries : list (string * node)) :
  NoDup (map fst entries) ->
  (forall e, In e entries -> NoDup (filesUnder (snd e) (at_ ++ [fst e]))) ->
  NoDup (flat_map (fun e => filesUnder (snd e) (at_ ++ [fst e])) entries).
Proof.
  induction entries as [| [s x] rest IH]; cbn; intros Hnd Heach.
  - constructor.
  - inversion Hnd as [| ? ? Hnotin Hnd']; subst.
    apply NoDup_app.
    + apply (Heach (s, x)). left; reflexivity.
    + apply IH; [exact Hnd' |]. intros e He. apply Heach. right; exact He.
    + intros p Hp Hp'. apply in_flat_map in Hp'. destruct Hp' as [[s' x'] [He' Hp']].
      cbn in Hp'.
      apply filesUnder_below in Hp. destruct Hp as [rel Hrel].
      apply filesUnder_below in Hp'. destruct Hp' as [rel' Hrel'].
      rewrite Hrel in Hrel'. rewrite <- !app_assoc in Hrel'.
      apply app_inv_head in Hrel'. cbn in Hrel'. injection Hrel' as Hs _.
      apply Hnotin. rewrite Hs. change s' with (fst (s', x')). apply in_map. exact He'.
Qed.

Lemma filesUnder_NoDup (n : node) :
  wellFormed n = true -> forall at_, NoDup (filesUnder n at_).
Proof.
  induction n as [c | entries IH | | | ] using node_tree_ind; intros Hwf at_; cbn.
  - constructor; [intros [] | constructor].
  - destruct (wellFormed_Dir entries Hwf) as [Hd Hall].
    rewrite Forall_forall in IH.
    apply NoDup_flat_map_entries.
    + apply distinct_NoDup. exact Hd.
    + intros e He. apply (IH e He). apply (Hall e He).
  - constructor.
  - constructor.
  - constructor; [intros [] | constructor].
Qed.

(** ** The walker: what a scan returns *)

Section ResultFacts.

Variable fs : node.
Variable projectRoot : path.
Variable parser : GitignoreParser.t.

Lemma result_call {A : Type} (ev : event) (r : errno + A) :
  result (call ev r) = match r with inr a => Value a | inl e => Thrown e end.
Proof. destruct r; reflexivity. Qed.

Lemma result_visit (recur : path -> list path -> eff (list path))
      (dir : path) (item : string) (files : list path) :
  result (FileScanner.visit fs projectRoot parser recur dir item files)
  = if GitignoreParser.shouldIgnore parser (relative projectRoot (dir ++ [item]))
    then Value files
    else match stat fs (dir ++ [item]) with
         | inl e => Thrown e
         | inr true => result (recur (dir ++ [item]) files)
         | inr false => Value (files ++ [dir ++ [item]])
         end.
Proof.
  unfold FileScanner.visit, join. rewrite result_bind. cbn [FileScanner.shouldIgnore].
  cbn -[GitignoreParser.shouldIgnore relative stat].
  destruct (GitignoreParser.shouldIgnore parser (relative projectRoot (dir ++ [item]))).
  - reflexivity.
  - rewrite result_bind, result_call.
    destruct (stat fs (dir ++ [item])) as [e | [|]]; reflexivity.
Qed.

Lemma result_scanDirectory_S (fuel : nat) (dir : path) (files : list path) :
  result (FileScanner.scanDirectory fs projectRoot parser (S fuel) dir files)
  = match readdir fs dir with
    | inl e => Thrown e
    | inr items =>
        result (forOf items
                      (FileScanner.visit fs projectRoot parser
                         (FileScanner.scanDirectory fs projectRoot parser fuel) dir)
                      files)
    end.
Proof.
  rewrite scanDirectory_S, result_bind, result_call.
  destruct (readdir fs dir); reflexivity.
Qed.

End ResultFacts.

Section PlainScan.

Variable fs : node.
Variable projectRoot : path.

Lemma forOf_plain (fuel : nat) (dir : path) :
  forall (sub : list (string * node)),
    (forall e, In e sub ->
               lookup fs (dir ++ [fst e]) = Some (snd e)
               /\ match snd e with
                  | File _ => True
                  | Sealed => True
                  | Dir entries =>
                      forall files,
                        result (FileScanner.scanDirectory fs projectRoot [] fuel
                                                          (dir ++ [fst e]) files)
                        = Value (files ++ filesUnder (snd e) (dir ++ [fst e]))
                  | _ => False
                  end) ->
    forall files,
      result (forOf (map fst sub)
                    (FileScanner.visit fs projectRoot []
                       (FileScanner.scanDirectory fs projectRoot [] fuel) dir)
                    files)
      = Value (files ++ flat_map (fun e => filesUnder (snd e) (dir ++ [fst e])) sub).
Proof.
  induction sub as [| [s x] rest IH]; intros Hsub files.
  - cbn. rewrite app_nil_r. reflexivity.
  - cbn [map fst forOf]. rewrite result_bind, result_visit.
    unfold GitignoreParser.shouldIgnore. rewrite ignores_no_rules.
    destruct (Hsub (s, x) (or_introl eq_refl)) as [Hl Hx]. cbn [fst snd] in Hl, Hx.
    unfold stat. rewrite Hl.
    assert (Hrest : forall files',
               result (forOf (map fst rest)
                             (FileScanner.visit fs projectRoot []
                                (FileScanner.scanDirectory fs projectRoot [] fuel) dir)
                             files')
               = Value (files' ++ flat_map (fun e => filesUnder (snd e) (dir ++ [fst e])) rest)).
    { intros files'. apply IH. intros e He. apply Hsub. right; exact He. }
    destruct x as [c | entries | | | ]; try contradiction.
    + rewrite Hrest. cbn. rewrite <- app_assoc. reflexivity.
    + rewrite Hx, Hrest. cbn [flat_map fst snd]. rewrite <- app_assoc. reflexivity.
    + rewrite Hrest. cbn. rewrite <- app_assoc. reflexivity.
Qed.

Lemma scanDirectory_plain (fuel : nat) :
  forall (dir : path) (entries : list (string * node)) (files : list path),
    lookup fs dir = Some (Dir entries) ->
    readable (Dir entries) = true ->
    wellFormed (Dir entries) = true ->
    height (Dir entries) <= fuel ->
    result (FileScanner.scanDirectory fs projectRoot [] fuel dir files)
    = Value (files ++ filesUnder (Dir entries) dir).
Proof.
  induction fuel as [| fuel IH]; intros dir entries files Hl Hr Hwf Hh.
  - cbn in Hh. lia.
  - rewrite result_scanDirectory_S. unfold readdir. rewrite Hl.
    cbn [filesUnder]. apply forOf_plain.
    intros [s x] He. cbn [fst snd].
    destruct (wellFormed_Dir entries Hwf) as [Hd Hall].
    assert (Hlx : lookup fs (dir ++ [s]) = Some x).
    { rewrite lookup_app, Hl. cbn. rewrite (assoc_distinct s entries x Hd He). reflexivity. }
    split; [exact Hlx |].
    pose proof (readable_Dir entries Hr (s, x) He) as Hrx.
    pose proof (proj2 (Hall (s, x) He)) as Hwx.
    pose proof (height_entry entries (s, x) He) as Hhx.
    cbn [fst snd] in Hrx, Hwx, Hhx.
    destruct x as [c | entries' | | | ]; try discriminate; [trivial | | trivial].
    intros files'. apply IH; [exact Hlx | exact Hrx | exact Hwx | lia].
Qed.

End PlainScan.

(** C6 (as amended). In a project without [.gitignore] whose tree can be
    read throughout (every directory listed, every entry stat-ed), a scan
    returns the files below the root and nothing else: a path is in the
    result exactly when it lies below the root and [stat] does not report
    it as a directory, and no path occurs twice. *)
Theorem scan_without_gitignore_returns_every_file
        (fs : node) (projectRoot : path) (entries : list (string * node)) (fuel : nat) :
  lookup fs projectRoot = Some (Dir entries) ->
  readable (Dir entries) = true ->
  wellFormed (Dir entries) = true ->
  existsSync fs (join projectRoot ".gitignore") = false ->
  height (Dir entries) <= fuel ->
  exists (parser : GitignoreParser.t) (files : list path),
    GitignoreParser.new fs projectRoot = inr parser
    /\ result (FileScanner.scanFiles fs projectRoot parser fuel) = Value files
    /\ NoDup files
    /\ forall p : path,
        In p files
        <-> exists rel,
            rel <> [] /\ p = projectRoot ++ rel /\ stat fs p = inr false.
Proof.
  intros Hl Hr Hwf Habsent Hh.
  exists [], (filesUnder (Dir entries) projectRoot).
  split; [| split; [| split]].
  - unfold GitignoreParser.new, GitignoreParser.loadGitignore. rewrite Habsent. reflexivity.
  - unfold FileScanner.scanFiles.
    rewrite (scanDirectory_plain fs projectRoot fuel projectRoot entries [] Hl Hr Hwf Hh).
    reflexivity.
  - apply filesUnder_NoDup. exact Hwf.
  - intros p. rewrite (filesUnder_lookup (Dir entries) Hwf).
    assert (Hstat : forall rel, stat fs (projectRoot ++ rel) = stat (Dir entries) rel).
    { intros rel. unfold stat. rewrite lookup_app, Hl. reflexivity. }
    split.
    + intros [rel [-> Hf]]. exists rel. split; [| split].
      * intros ->. discriminate.
      * reflexivity.
      * rewrite Hstat. exact Hf.
    + intros [rel [_ [-> Hf]]]. exists rel. split; [reflexivity |].
      rewrite Hstat in Hf. exact Hf.
Qed.

Lemma scan_without_gitignore_returns_every_file_witness :
  exists (parser : GitignoreParser.t) (files : list path),
    GitignoreParser.new Examples.plain ["home"; "proj"] = inr parser
    /\ result (FileScanner.scanFiles Examples.plain ["home"; "proj"] parser 2) = Value files
    /\ NoDup files
    /\ forall p : path,
        In p files
        <-> exists rel,
            rel <> [] /\ p = ["home"; "proj"] ++ rel
            /\ stat Examples.plain p = inr false.
Proof.
  eapply (scan_without_gitignore_returns_every_file Examples.plain ["home"; "proj"]).
  - reflexivity.
  - reflexivity.
  - reflexivity.
  - reflexivity.
  - cbn. lia.
Defined.

(** The claim C6 as it is written, for every directory tree, fails: in a
    project without [.gitignore] whose listings are in order, one entry
    that cannot be stat-ed is enough for the scan to return no list at all,
    although two files lie next to it. *)
Lemma scan_of_every_tree_counterexample :
  existsSync Examples.withGoneEntry (join ["proj"] ".gitignore") = false
  /\ GitignoreParser.new Examples.withGoneEntry ["proj"] = inr []
  /\ wellFormed Examples.withGoneEntry = true
  /\ stat Examples.withGoneEntry ["proj"; "a.txt"] = inr false
  /\ stat Examples.withGoneEntry ["proj"; "b.txt"] = inr false
  /\ ~ (exists fuel files,
         result (FileScanner.scanFiles Examples.withGoneEntry ["proj"] [] fuel)
         = Value files).
Proof.
  repeat split.
  intros [[| [| fuel]] [files H]].
  - discriminate.
  - discriminate.
  - assert (Hin : In (Stat ["proj"; "gone.txt"])
                     (log (FileScanner.scanFiles Examples.withGoneEntry ["proj"] [] (S (S fuel))))).
    { cbn. right; right; right; right; left; reflexivity. }
    pose proof (failFast_scanDirectory Examples.withGoneEntry ["proj"] [] (S (S fuel))
                                       ["proj"] [] _ ENOENT Hin eq_refl) as Hf.
    unfold FileScanner.scanFiles in H. congruence.
Qed.

(** ** The walker: what the matcher is asked *)

Lemma queries_app (l l' : list event) :
  Observe.queries (l ++ l') = Observe.queries l ++ Observe.queries l'.
Proof. unfold Observe.queries. apply flat_map_app. Qed.

Section TwoMounts.

(** The same tree [t], once at [root1] in [fs1], once at [root2] in
    [fs2]. *)
Variables fs1 fs2 : node.
Variables root1 root2 : path.
Variable t : node.
Hypothesis mount1 : lookup fs1 root1 = Some t.
Hypothesis mount2 : lookup fs2 root2 = Some t.
Variable parser : GitignoreParser.t.

Lemma sameRun_bind (files1 files2 : list path) (m1 m2 : eff (list path))
      (k1 k2 : list path -> eff (list path)) :
  Observe.sameRun root1 root2 files1 files2 m1 m2 ->
  (forall l1 l2, Observe.sameRun root1 root2 l1 l2 (k1 l1) (k2 l2)) ->
  Observe.sameRun root1 root2 files1 files2 (bind m1 k1) (bind m2 k2).
Proof.
  intros [Hq Hr] Hk. unfold Observe.sameRun.
  rewrite !log_bind, !result_bind.
  destruct (result m1) as [l1 | e1 | ], (result m2) as [l2 | e2 | ]; try contradiction;
    try (split; assumption).
  destruct Hr as [new [-> ->]].
  destruct (Hk (files1 ++ map (app root1) new) (files2 ++ map (app root2) new)) as [Hq' Hr'].
  split.
  - rewrite !queries_app. congruence.
  - destruct (result (k1 _)) as [l1' | e1' | ], (result (k2 _)) as [l2' | e2' | ];
      try contradiction; try assumption.
    destruct Hr' as [new' [-> ->]].
    exists (new ++ new'). rewrite !map_app, !app_assoc. split; reflexivity.
Qed.

Lemma sameRun_ret (files1 files2 : list path) (new : list (list string)) :
  Observe.sameRun root1 root2 files1 files2
                  (ret (files1 ++ map (app root1) new))
                  (ret (files2 ++ map (app root2) new)).
Proof. split; [reflexivity |]. cbn. exists new. split; reflexivity. Qed.

Lemma sameRun_forOf (body1 body2 : string -> list path -> eff (list path))
      (items : list string) :
  (forall item l1 l2,
      Observe.sameRun root1 root2 l1 l2 (body1 item l1) (body2 item l2)) ->
  forall files1 files2,
    Observe.sameRun root1 root2 files1 files2
                    (forOf items body1 files1) (forOf items body2 files2).
Proof.
  intros Hbody. induction items as [| item rest IH]; intros files1 files2; cbn [forOf].
  - pose proof (sameRun_ret files1 files2 []) as H. cbn in H.
    rewrite !app_nil_r in H. exact H.
  - apply sameRun_bind; [apply Hbody | exact IH].
Qed.

Lemma stat_mounts (rel : list string) :
  stat fs1 (root1 ++ rel) = stat fs2 (root2 ++ rel).
Proof. unfold stat. rewrite !lookup_app, mount1, mount2. reflexivity. Qed.

Lemma readdir_mounts (rel : list string) :
  readdir fs1 (root1 ++ rel) = readdir fs2 (root2 ++ rel).
Proof. unfold readdir. rewrite !lookup_app, mount1, mount2. reflexivity. Qed.

Lemma sameRun_call_bind {A : Type} (ev1 ev2 : event) (r : errno + A)
      (k1 k2 : A -> eff (list path)) (files1 files2 : list path) :
  Observe.queries [ev1] = [] -> Observe.queries [ev2] = [] ->
  (forall a, Observe.sameRun root1 root2 files1 files2 (k1 a) (k2 a)) ->
  Observe.sameRun root1 root2 files1 files2
                  (bind (call ev1 r) k1) (bind (call ev2 r) k2).
Proof.
  intros H1 H2 Hk. unfold Observe.sameRun.
  rewrite !log_bind, !result_bind, !result_call.
  destruct r as [e | a].
  - cbn [call log fst]. rewrite H1, H2. split; reflexivity.
  - cbn [call log fst]. rewrite !queries_app, H1, H2. exact (Hk a).
Qed.

Lemma sameRun_query_bind (q : string)
      (k1 k2 : bool -> eff (list path)) (files1 files2 : list path) :
  (forall b, Observe.sameRun root1 root2 files1 files2 (k1 b) (k2 b)) ->
  Observe.sameRun root1 root2 files1 files2
                  (bind (FileScanner.shouldIgnore parser q) k1)
                  (bind (FileScanner.shouldIgnore parser q) k2).
Proof.
  intros Hk. unfold Observe.sameRun.
  rewrite !log_bind, !result_bind.
  assert (Hres : result (FileScanner.shouldIgnore parser q)
                 = Value (GitignoreParser.shouldIgnore parser q)) by reflexivity.
  assert (Hlog : log (FileScanner.shouldIgnore parser q) = [Query q]) by reflexivity.
  rewrite Hres, Hlog, !queries_app.
  destruct (Hk (GitignoreParser.shouldIgnore parser q)) as [Hq Hr].
  split; [congruence | exact Hr].
Qed.

Lemma sameRun_scanDirectory (fuel : nat) :
  forall (rel : list string) (files1 files2 : list path),
    Observe.sameRun root1 root2 files1 files2
      (FileScanner.scanDirectory fs1 root1 parser fuel (root1 ++ rel) files1)
      (FileScanner.scanDirectory fs2 root2 parser fuel (root2 ++ rel) files2).
Proof.
  induction fuel as [| fuel IH]; intros rel files1 files2.
  - split; [reflexivity | exact I].
  - rewrite !scanDirectory_S, (readdir_mounts rel).
    apply sameRun_call_bind; [reflexivity | reflexivity |].
    intros items. apply sameRun_forOf. intros item l1 l2.
    unfold FileScanner.visit, join.
    rewrite <- !app_assoc, !relative_below.
    apply sameRun_query_bind. intros [|].
    + pose proof (sameRun_ret l1 l2 []) as H. cbn in H.
      rewrite !app_nil_r in H. exact H.
    + rewrite (stat_mounts (rel ++ [item])).
      apply sameRun_call_bind; [reflexivity | reflexivity |].
      intros [|].
      * apply IH.
      * exact (sameRun_ret l1 l2 [rel ++ [item]]).
Qed.

End TwoMounts.

Lemma assoc_listed (item : string) (entries : list (string * node)) :
  In item (map fst entries) -> assoc item entries <> None.
Proof.
  induction entries as [| [s x] rest IH]; cbn; [contradiction |].
  intros [-> | Hin].
  - rewrite String.eqb_refl. discriminate.
  - destruct (String.eqb s item); [discriminate | exact (IH Hin)].
Qed.

Lemma readdir_listed (fs : node) (dir : path) (items : list string) (item : string) :
  readdir fs dir = inr items -> In item items -> lookup fs (dir ++ [item]) <> None.
Proof.
  unfold readdir. rewrite lookup_app.
  destruct (lookup fs dir) as [[c | entries | | | ] |]; try discriminate.
  intros H Hin. injection H as <-. cbn.
  pose proof (assoc_listed item entries Hin) as Ha.
  destruct (assoc item entries); [discriminate | contradiction].
Qed.

Lemma nameOk_not_absolute (s : string) (rest : list string) :
  nameOk s = true -> isAbsolute (String.concat sep (s :: rest)) = false.
Proof.
  unfold nameOk. intros H. apply andb_prop in H. destruct H as [Hne Hsl].
  destruct s as [| a s']; [discriminate |].
  cbn in Hsl. apply negb_true_iff in Hsl. apply orb_false_elim in Hsl.
  destruct Hsl as [Ha _].
  destruct rest as [| r rest']; cbn; rewrite Ascii.eqb_sym; exact Ha.
Qed.

Lemma entry_not_absolute (t : node) (rel : list string) :
  wellFormed t = true -> rel <> [] -> lookup t rel <> None ->
  isAbsolute (String.concat sep rel) = false.
Proof.
  intros Hwf Hne Hl. destruct rel as [| s rel']; [contradiction |].
  destruct t as [c | entries | | | ]; try (exfalso; apply Hl; reflexivity).
  cbn in Hl. destruct (assoc s entries) as [x |] eqn:Ha; [| contradiction].
  apply assoc_In in Ha.
  destruct (wellFormed_Dir entries Hwf) as [_ Hall].
  apply nameOk_not_absolute. exact (proj1 (Hall (s, x) Ha)).
Qed.

Section QueryFacts.

Variable fs : node.
Variable projectRoot : path.
Variable t : node.
Hypothesis mount : lookup fs projectRoot = Some t.
Variable parser : GitignoreParser.t.

Lemma scanDirectory_asksBelow (fuel : nat) :
  forall (rel : list string) (files : list path),
    Forall (Observe.asksBelow t)
           (log (FileScanner.scanDirectory fs projectRoot parser fuel
                                           (projectRoot ++ rel) files)).
Proof.
  induction fuel as [| fuel IH]; intros rel files.
  - constructor.
  - rewrite scanDirectory_S. apply log_bind_Forall.
    + destruct (readdir fs (projectRoot ++ rel)); cbn; repeat constructor.
    + intros items Hitems. rewrite result_call in Hitems.
      destruct (readdir fs (projectRoot ++ rel)) as [e | items'] eqn:Hr; [discriminate |].
      injection Hitems as ->.
      apply log_forOf_Forall. intros item files' Hin.
      unfold FileScanner.visit, join. rewrite <- app_assoc, relative_below.
      apply log_bind_Forall.
      * cbn. repeat constructor.
        exists (rel ++ [item]). split; [| split].
        -- destruct rel; discriminate.
        -- reflexivity.
        -- pose proof (readdir_listed fs (projectRoot ++ rel) items item Hr Hin) as Hl.
           rewrite <- app_assoc, lookup_app, mount in Hl. exact Hl.
      * intros [|] _; [constructor |].
        apply log_bind_Forall.
        -- destruct (stat fs (projectRoot ++ rel ++ [item])); cbn; repeat constructor.
        -- intros [|] _; [apply IH | constructor].
Qed.

End QueryFacts.

Lemma queries_none (l : list event) :
  Forall (fun ev => Observe.queries [ev] = []) l -> Observe.queries l = [].
Proof.
  induction 1 as [| ev l Hev _ IH]; [reflexivity |].
  change (ev :: l) with ([ev] ++ l). rewrite queries_app, Hev, IH. reflexivity.
Qed.

Lemma addFilesToArchive_asks_nothing (fs : node) (projectRoot : path)
      (options : RequiredZipOptions) (archive : list Zipper.entry) (files : list path) :
  Observe.queries (log (Zipper.addFilesToArchive fs projectRoot options archive files)) = [].
Proof.
  apply queries_none. unfold Zipper.addFilesToArchive.
  apply log_forOf_Forall. intros filePath archive' _.
  apply log_tryCatch_Forall; [| intros e; constructor].
  destruct (negb (rIncludeHidden options)
            && Zipper.isHiddenFile (relative projectRoot filePath)); [constructor |].
  apply log_bind_Forall; [cbn; repeat constructor |].
  intros [|] _; cbn [negb]; [| constructor].
  apply log_bind_Forall.
  - destruct (stat fs filePath); cbn; repeat constructor.
  - intros [|] _; constructor.
Qed.

(** C9. Every string that a scan passes to the matcher is the
    root-relative path of an entry of the project tree ([path.relative] of
    the project root and a path below it), never an absolute path; the
    same project scanned at two places on disk puts the same questions to
    the matcher in the same order; and filling the archive asks the matcher
    nothing. *)
Theorem matcher_queries_are_root_relative :
  (forall (fs : node) (projectRoot : path) (t : node) (parser : GitignoreParser.t)
          (fuel : nat) (q : string),
      lookup fs projectRoot = Some t ->
      wellFormed t = true ->
      In (Query q) (log (FileScanner.scanFiles fs projectRoot parser fuel)) ->
      isAbsolute q = false
      /\ exists rel, rel <> []
                     /\ q = relative projectRoot (projectRoot ++ rel)
                     /\ lookup t rel <> None)
  /\ (forall (fs1 fs2 : node) (root1 root2 : path) (t : node)
             (parser : GitignoreParser.t) (fuel : nat),
      lookup fs1 root1 = Some t ->
      lookup fs2 root2 = Some t ->
      Observe.queries (log (FileScanner.scanFiles fs1 root1 parser fuel))
      = Observe.queries (log (FileScanner.scanFiles fs2 root2 parser fuel)))
  /\ (forall (fs : node) (projectRoot : path) (options : RequiredZipOptions)
             (archive : list Zipper.entry) (files : list path),
      Observe.queries (log (Zipper.addFilesToArchive fs projectRoot options archive files))
      = []).
Proof.
  split; [| split].
  - intros fs projectRoot t parser fuel q Hmount Hwf Hin.
    pose proof (scanDirectory_asksBelow fs projectRoot t Hmount parser fuel [] []) as H.
    rewrite app_nil_r in H. rewrite Forall_forall in H.
    destruct (H _ Hin) as [rel [Hne [-> Hl]]].
    split.
    + exact (entry_not_absolute t rel Hwf Hne Hl).
    + exists rel. rewrite relative_below. repeat split; assumption.
  - intros fs1 fs2 root1 root2 t parser fuel H1 H2.
    pose proof (sameRun_scanDirectory fs1 fs2 root1 root2 t H1 H2 parser fuel [] [] []) as H.
    rewrite !app_nil_r in H. exact (proj1 H).
  - apply addFilesToArchive_asks_nothing.
Qed.

Lemma matcher_queries_are_root_relative_witness :
  Observe.queries (log (FileScanner.scanFiles Examples.plain ["home"; "proj"]
                                              [mkRule "*.md" false false] 2))
  = Observe.queries (log (FileScanner.scanFiles Examples.plainElsewhere ["srv"]
                                                [mkRule "*.md" false false] 2))
  /\ isAbsolute "src/a.ts" = false.
Proof.
  destruct matcher_queries_are_root_relative as [Hrel [Hsame _]].
  split.
  - eapply (Hsame Examples.plain Examples.plainElsewhere ["home"; "proj"] ["srv"]).
    + reflexivity.
    + reflexivity.
  - refine (proj1 (Hrel Examples.plain ["home"; "proj"] _ [mkRule "*.md" false false] 2
                        "src/a.ts" eq_refl eq_refl _)).
    vm_compute. do 5 right. left. reflexivity.
Defined.

(** ** The walker: order of the listings *)

Section Accumulator.

Variable body : string -> list path -> eff (list path).

(** The body only ever pushes: what it does to an array that holds
    [files] is what it does to an empty one, after [files]. *)
Hypothesis body_pushes :
  forall x files, result (body x files) = Observe.extend files (result (body x [])).

Lemma forOf_pushes (items : list string) :
  forall files,
    result (forOf items body files) = Observe.extend files (result (forOf items body [])).
Proof.
  induction items as [| x rest IH]; intros files; cbn [forOf].
  - cbn. rewrite app_nil_r. reflexivity.
  - rewrite !result_bind, (body_pushes x files).
    destruct (result (body x [])) as [c | e | ]; cbn; try reflexivity.
    rewrite (IH (files ++ c)), (IH c).
    destruct (result (forOf rest body [])) as [c' | e | ]; cbn; try reflexivity.
    rewrite app_assoc. reflexivity.
Qed.

Lemma forOf_Value_inv (items : list string) (c : list path) :
  result (forOf items body []) = Value c ->
  exists cs, Forall2 (fun x cx => result (body x []) = Value cx) items cs
             /\ c = flat_map (fun cx => cx) cs.
Proof.
  revert c. induction items as [| x rest IH]; intros c; cbn [forOf].
  - cbn. intros H; injection H as <-. exists []. split; [constructor | reflexivity].
  - rewrite result_bind.
    destruct (result (body x [])) as [cx | e | ] eqn:Hx; try discriminate.
    rewrite (forOf_pushes rest cx).
    destruct (result (forOf rest body [])) as [c' | e | ] eqn:Hrest; try discriminate.
    cbn. intros H; injection H as <-.
    destruct (IH c' eq_refl) as [cs [Hcs ->]].
    exists (cx :: cs). split; [constructor; assumption | reflexivity].
Qed.

Lemma forOf_Value_intro (items : list string) (cs : list (list path)) :
  Forall2 (fun x cx => result (body x []) = Value cx) items cs ->
  result (forOf items body []) = Value (flat_map (fun cx => cx) cs).
Proof.
  induction 1 as [| x cx rest cs' Hx _ IH]; cbn [forOf].
  - reflexivity.
  - rewrite result_bind, Hx, (forOf_pushes rest cx), IH. reflexivity.
Qed.

End Accumulator.

Lemma scanDirectory_pushes (fs : node) (projectRoot : path) (parser : GitignoreParser.t)
      (fuel : nat) :
  forall dir files,
    result (FileScanner.scanDirectory fs projectRoot parser fuel dir files)
    = Observe.extend files
        (result (FileScanner.scanDirectory fs projectRoot parser fuel dir [])).
Proof.
  induction fuel as [| fuel IH]; intros dir files.
  - reflexivity.
  - rewrite !result_scanDirectory_S.
    destruct (readdir fs dir) as [e | items]; [reflexivity |].
    apply forOf_pushes. intros item files'. rewrite !result_visit.
    destruct (GitignoreParser.shouldIgnore parser (relative projectRoot (dir ++ [item]))).
    + cbn. rewrite app_nil_r. reflexivity.
    + destruct (stat fs (dir ++ [item])) as [e | [|]]; [reflexivity | apply IH | reflexivity].
Qed.

Lemma visit_pushes (fs : node) (projectRoot : path) (parser : GitignoreParser.t)
      (fuel : nat) (dir : path) (item : string) (files : list path) :
  result (FileScanner.visit fs projectRoot parser
            (FileScanner.scanDirectory fs projectRoot parser fuel) dir item files)
  = Observe.extend files
      (result (FileScanner.visit fs projectRoot parser
                 (FileScanner.scanDirectory fs projectRoot parser fuel) dir item [])).
Proof.
  rewrite !result_visit.
  destruct (GitignoreParser.shouldIgnore parser (relative projectRoot (dir ++ [item]))).
  - cbn. rewrite app_nil_r. reflexivity.
  - destruct (stat fs (dir ++ [item])) as [e | [|]];
      [reflexivity | apply scanDirectory_pushes | reflexivity].
Qed.

Lemma Forall2_Permutation_flat (cs cs' : list (list path)) :
  Forall2 (@Permutation path) cs cs' ->
  Permutation (flat_map (fun cx => cx) cs) (flat_map (fun cx => cx) cs').
Proof.
  induction 1 as [| c c' rest rest' Hc _ IH]; cbn.
  - constructor.
  - apply Permutation_app; assumption.
Qed.

Lemma Forall2_transfer (R1 R2 : string -> list path -> Prop)
      (S : string * node -> string * node -> Prop) :
  forall (es1 es2 : list (string * node)),
    Forall2 S es1 es2 ->
    forall cs1,
      Forall2 R1 (map fst es1) cs1 ->
      (forall e1 e2 cx, In e1 es1 -> In e2 es2 -> S e1 e2 -> R1 (fst e1) cx ->
                        exists cx', R2 (fst e2) cx' /\ Permutation cx cx') ->
      exists cs2, Forall2 R2 (map fst es2) cs2 /\ Forall2 (@Permutation path) cs1 cs2.
Proof.
  induction 1 as [| e1 e2 rest1 rest2 He _ IH]; intros cs1 Hcs Hstep.
  - inversion Hcs; subst. exists []. split; constructor.
  - cbn in Hcs. inversion Hcs as [| ? cx ? cs1' Hx Hrest]; subst.
    destruct (Hstep e1 e2 cx (or_introl eq_refl) (or_introl eq_refl) He Hx) as [cx' [Hx' Hp]].
    destruct (IH cs1' Hrest) as [cs2 [Hcs2 Hps]].
    { intros a b c Ha Hb. apply Hstep; right; assumption. }
    exists (cx' :: cs2). split; constructor; assumption.
Qed.

Section Reordered.

(** The disk as the first scan lists it and as the second one does. *)
Variables fs1 fs2 : node.
Variable projectRoot : path.
Variable parser : GitignoreParser.t.

Lemma scanDirectory_reordered (fuel : nat) :
  forall (dir : path) (n1 n2 : node) (c1 : list path),
    lookup fs1 dir = Some n1 ->
    lookup fs2 dir = Some n2 ->
    sameEntries n1 n2 ->
    wellFormed n1 = true ->
    wellFormed n2 = true ->
    result (FileScanner.scanDirectory fs1 projectRoot parser fuel dir []) = Value c1 ->
    exists c2,
      result (FileScanner.scanDirectory fs2 projectRoot parser fuel dir []) = Value c2
      /\ Permutation c1 c2.
Proof.
  induction fuel as [| fuel IH]; intros dir n1 n2 c1 Hl1 Hl2 Hsame Hwf1 Hwf2 Hres.
  - discriminate.
  - rewrite result_scanDirectory_S in Hres. rewrite result_scanDirectory_S.
    unfold readdir in *. rewrite Hl1 in Hres. rewrite Hl2.
    inversion Hsame as [c | es1 es2 reordered Hperm Hall | | | ]; subst;
      try discriminate.
    destruct (wellFormed_Dir es1 Hwf1) as [Hd1 Hall1].
    destruct (wellFormed_Dir es2 Hwf2) as [Hd2 Hall2].
    apply forOf_Value_inv in Hres; [| intros; apply visit_pushes].
    destruct Hres as [cs1 [Hcs1 ->]].
    destruct (Forall2_transfer
                (fun x cx =>
                   result (FileScanner.visit fs1 projectRoot parser
                             (FileScanner.scanDirectory fs1 projectRoot parser fuel)
                             dir x []) = Value cx)
                (fun x cx =>
                   result (FileScanner.visit fs2 projectRoot parser
                             (FileScanner.scanDirectory fs2 projectRoot parser fuel)
                             dir x []) = Value cx)
                _ es1 reordered Hall cs1 Hcs1) as [cs2' [Hcs2' Hps]].
    { intros [s x1] [s' x2] cx He1 He2 [Hname Hsub] Hx. cbn [fst snd] in *. subst s'.
      apply (Permutation_in _ Hperm) in He2.
      assert (Hlx1 : lookup fs1 (dir ++ [s]) = Some x1).
      { rewrite lookup_app, Hl1. cbn. rewrite (assoc_distinct s es1 x1 Hd1 He1). reflexivity. }
      assert (Hlx2 : lookup fs2 (dir ++ [s]) = Some x2).
      { rewrite lookup_app, Hl2. cbn. rewrite (assoc_distinct s es2 x2 Hd2 He2). reflexivity. }
      rewrite result_visit in Hx. rewrite result_visit.
      destruct (GitignoreParser.shouldIgnore parser (relative projectRoot (dir ++ [s]))).
      - injection Hx as <-. exists []. split; [reflexivity | constructor].
      - unfold stat in *. rewrite Hlx1 in Hx. rewrite Hlx2.
        pose proof (proj2 (Hall1 _ He1)) as Hwx1. pose proof (proj2 (Hall2 _ He2)) as Hwx2.
        cbn [snd] in Hwx1, Hwx2.
        inversion Hsub as [c | es1' es2' reordered' Hperm' Hall' | | | ]; subst.
        + injection Hx as <-. exists [dir ++ [s]]. split; [reflexivity | apply Permutation_refl].
        + exact (IH (dir ++ [s]) _ _ cx Hlx1 Hlx2 Hsub Hwx1 Hwx2 Hx).
        + exact (IH (dir ++ [s]) _ _ cx Hlx1 Hlx2 Hsub Hwx1 Hwx2 Hx).
        + discriminate.
        + injection Hx as <-. exists [dir ++ [s]]. split; [reflexivity | apply Permutation_refl]. }
    assert (Hnames : map fst es1 = map fst reordered).
    { clear -Hall. induction Hall as [| e1 e2 r1 r2 [Hn _] _ IHa]; cbn; congruence. }
    assert (Hpn : Permutation (map fst reordered) (map fst es2))
      by (apply Permutation_map; exact Hperm).
    destruct (Permutation_Forall2 Hpn Hcs2') as [cs2 [Hpc Hcs2]].
    exists (flat_map (fun cx => cx) cs2). split.
    + apply forOf_Value_intro; [intros; apply visit_pushes | exact Hcs2].
    + etransitivity; [apply Forall2_Permutation_flat; exact Hps |].
      apply Permutation_flat_map. exact Hpc.
Qed.

End Reordered.

(** C8. Two scans in a row of the same tree with the same rules return the
    same files: when a scan returns, a second one returns the same list, and
    whenever both return their results agree.  The order in which the
    directories list their entries does not matter for the set: if the
    second scan is handed the listings in another order, it returns a
    rearrangement of what the first one returned. *)
Theorem consecutive_scans_agree :
  (forall (fs : node) (projectRoot : path) (parser : GitignoreParser.t) (fuel : nat)
          (files : list path),
      result (FileScanner.scanFiles fs projectRoot parser fuel) = Value files ->
      result (Observe.scanTwice fs projectRoot parser fuel) = Value (files, files))
  /\ (forall (fs : node) (projectRoot : path) (parser : GitignoreParser.t) (fuel : nat)
             (first second : list path),
      result (Observe.scanTwice fs projectRoot parser fuel) = Value (first, second) ->
      first = second /\ forall p : path, In p first <-> In p second)
  /\ (forall (fs1 fs2 : node) (projectRoot : path) (parser : GitignoreParser.t)
             (fuel : nat) (t1 t2 : node) (first : list path),
      lookup fs1 projectRoot = Some t1 ->
      lookup fs2 projectRoot = Some t2 ->
      sameEntries t1 t2 ->
      wellFormed t1 = true ->
      wellFormed t2 = true ->
      result (FileScanner.scanFiles fs1 projectRoot parser fuel) = Value first ->
      exists second,
        result (FileScanner.scanFiles fs2 projectRoot parser fuel) = Value second
        /\ Permutation first second
        /\ forall p : path, In p first <-> In p second).
Proof.
  split; [| split].
  - intros fs projectRoot parser fuel files H.
    unfold Observe.scanTwice. rewrite result_bind, H, result_bind, H. reflexivity.
  - intros fs projectRoot parser fuel first second.
    unfold Observe.scanTwice. rewrite result_bind.
    destruct (result (FileScanner.scanFiles fs projectRoot parser fuel)) as [files | e | ] eqn:H;
      try discriminate.
    rewrite result_bind, H. cbn. intros Heq. injection Heq as <- <-.
    split; [reflexivity | intros p; reflexivity].
  - intros fs1 fs2 projectRoot parser fuel t1 t2 first Hl1 Hl2 Hsame Hwf1 Hwf2 Hres.
    destruct (scanDirectory_reordered fs1 fs2 projectRoot parser fuel projectRoot
                                      t1 t2 first Hl1 Hl2 Hsame Hwf1 Hwf2 Hres)
      as [second [Hsecond Hperm]].
    exists second. split; [exact Hsecond | split; [exact Hperm |]].
    intros p. split; intros Hin.
    + exact (Permutation_in p Hperm Hin).
    + exact (Permutation_in p (Permutation_sym Hperm) Hin).
Qed.

Lemma consecutive_scans_agree_witness :
  result (Observe.scanTwice Examples.withBuildRule ["proj"] [mkRule "build" false true] 2)
  = Value ([["proj"; ".gitignore"]; ["proj"; "main.ts"]],
           [["proj"; ".gitignore"]; ["proj"; "main.ts"]])
  /\ exists second,
      result (FileScanner.scanFiles Examples.plainReordered ["home"; "proj"]
                                    [mkRule "*.md" false false] 2) = Value second
      /\ Permutation [["home"; "proj"; "src"; "a.ts"]; ["home"; "proj"; "src"; "b.ts"]] second
      /\ forall p : path,
          In p [["home"; "proj"; "src"; "a.ts"]; ["home"; "proj"; "src"; "b.ts"]]
          <-> In p second.
Proof.
  destruct consecutive_scans_agree as [Hsame [_ Hreordered]].
  split.
  - apply (Hsame Examples.withBuildRule ["proj"] [mkRule "build" false true] 2).
    reflexivity.
  - eapply (Hreordered Examples.plain Examples.plainReordered ["home"; "proj"]
                       [mkRule "*.md" false false] 2).
    + reflexivity.
    + reflexivity.
    + apply (@same_Dir _ _
                       [("README.md", File "r");
                        ("src", Dir [("b.ts", File "b"); ("a.ts", File "a")]);
                        ("empty", Dir [])]).
      * exact (Permutation_cons_append
                 [("src", Dir [("b.ts", File "b"); ("a.ts", File "a")]); ("empty", Dir [])]
                 ("README.md", File "r")).
      * constructor; [split; [reflexivity | constructor] |].
        constructor; [split; [reflexivity |] |].
        -- apply (@same_Dir _ _ [("a.ts", File "a"); ("b.ts", File "b")]);
             [apply perm_swap |].
           repeat (constructor; [split; [reflexivity | constructor] |]). constructor.
        -- constructor; [split; [reflexivity |] | constructor].
           apply (@same_Dir _ _ []); [apply perm_nil | constructor].
    + reflexivity.
    + reflexivity.
    + reflexivity.
Defined.

(* ===================================================================== *)
(** * Further properties of the code *)
(* ===================================================================== *)

(** ** What a scan can return *)

Lemma forOf_result_inv {A S : Type} (I : S -> Prop) (body : A -> S -> eff S)
      (items : list A) :
  (forall x s s', In x items -> I s -> result (body x s) = Value s' -> I s') ->
  forall s s', I s -> result (forOf items body s) = Value s' -> I s'.
Proof.
  induction items as [| x rest IH]; intros Hbody s s' Hs Hres; cbn [forOf] in Hres.
  - cbn in Hres. injection Hres as <-. exact Hs.
  - rewrite result_bind in Hres.
    destruct (result (body x s)) as [s1 | e | ] eqn:Hx; try discriminate.
    apply (IH (fun y t t' Hy => Hbody y t t' (or_intror Hy)) s1 s');
      [| exact Hres].
    apply (Hbody x s s1); [left; reflexivity | exact Hs | exact Hx].
Qed.

Section Soundness.

Variable fs : node.
Variable projectRoot : path.
Variable parser : GitignoreParser.t.

(** A path that may be in the result: below the root, not a directory,
    and passed by the matcher at every level. *)
Local Notation "'wanted'" :=
  (fun p : path => exists rel, rel <> [] /\ p = projectRoot ++ rel
                               /\ stat fs p = inr false /\ Observe.passes parser rel).

Lemma scanDirectory_sound (fuel : nat) :
  forall (rel : list string) (files l : list path),
    Observe.passes parser rel ->
    result (FileScanner.scanDirectory fs projectRoot parser fuel (projectRoot ++ rel) files)
    = Value l ->
    Forall wanted files -> Forall wanted l.
Proof.
  induction fuel as [| fuel IH]; intros rel files l Hrel Hres Hfiles.
  - discriminate.
  - rewrite result_scanDirectory_S in Hres.
    destruct (readdir fs (projectRoot ++ rel)) as [e | items]; [discriminate |].
    revert Hres. apply forOf_result_inv; [| exact Hfiles].
    intros item s s' _ Hs. rewrite result_visit, <- app_assoc, relative_below.
    destruct (GitignoreParser.shouldIgnore parser (String.concat sep (rel ++ [item])))
      eqn:Hig.
    + intros H; injection H as <-. exact Hs.
    + pose proof (passes_snoc parser rel item Hrel Hig) as Hpass.
      destruct (stat fs (projectRoot ++ rel ++ [item])) as [e | [|]] eqn:Hst.
      * discriminate.
      * intros H. exact (IH (rel ++ [item]) s s' Hpass H Hs).
      * intros H; injection H as <-. apply Forall_app. split; [exact Hs |].
        constructor; [| constructor].
        exists (rel ++ [item]). repeat split; try assumption.
        destruct rel; discriminate.
Qed.

End Soundness.

(** X1. Whatever the tree and the rules, a scan that returns only returns
    paths that lie below the project root, are not directories, and are
    excluded by the matcher neither themselves nor through a directory
    above them. *)
Theorem scan_returns_only_passing_files (fs : node) (projectRoot : path)
        (parser : GitignoreParser.t) (fuel : nat) (files : list path) :
  result (FileScanner.scanFiles fs projectRoot parser fuel) = Value files ->
  forall p : path,
    In p files ->
    exists rel, rel <> [] /\ p = projectRoot ++ rel
                /\ stat fs p = inr false /\ Observe.passes parser rel.
Proof.
  intros Hres.
  pose proof (scanDirectory_sound fs projectRoot parser fuel [] [] files
                                  (passes_nil parser)) as H.
  rewrite app_nil_r in H. specialize (H Hres (Forall_nil _)).
  rewrite Forall_forall in H. exact H.
Qed.

Lemma scan_returns_only_passing_files_witness :
  exists rel, rel <> [] /\ ["proj"; "main.ts"] = ["proj"] ++ rel
              /\ stat Examples.withBuildRule ["proj"; "main.ts"] = inr false
              /\ Observe.passes [mkRule "build" false true] rel.
Proof.
  apply (scan_returns_only_passing_files
           Examples.withBuildRule ["proj"] [mkRule "build" false true] 2
           [["proj"; ".gitignore"]; ["proj"; "main.ts"]]).
  - reflexivity.
  - right; left; reflexivity.
Defined.

(** ** What a scan returns, for every rule set *)

Lemma reachable_Dir (parser : GitignoreParser.t) (entries : list (string * node))
      (rel : list string) :
  Expect.reachable parser (Dir entries) rel = true ->
  forall e, In e entries ->
            GitignoreParser.shouldIgnore parser (String.concat sep (rel ++ [fst e])) = false ->
            Expect.reachable parser (snd e) (rel ++ [fst e]) = true.
Proof.
  cbn. intros H e He Hig. rewrite forallb_forall in H.
  specialize (H e He). rewrite Hig in H. exact H.
Qed.

Section KeptScan.

Variable fs : node.
Variable projectRoot : path.
Variable parser : GitignoreParser.t.

Lemma forOf_kept (fuel : nat) (rel : list string) :
  forall (sub : list (string * node)),
    (forall e, In e sub ->
               lookup fs (projectRoot ++ rel ++ [fst e]) = Some (snd e)
               /\ (GitignoreParser.shouldIgnore parser (String.concat sep (rel ++ [fst e]))
                   = false ->
                   match snd e with
                   | File _ => True
                   | Sealed => True
                   | Dir _ =>
                       forall files,
                         result (FileScanner.scanDirectory fs projectRoot parser fuel
                                   (projectRoot ++ rel ++ [fst e]) files)
                         = Value (files ++ map (app projectRoot)
                                               (Expect.kept parser (snd e) (rel ++ [fst e])))
                   | _ => False
                   end)) ->
    forall files,
      result (forOf (map fst sub)
                    (FileScanner.visit fs projectRoot parser
                       (FileScanner.scanDirectory fs projectRoot parser fuel)
                       (projectRoot ++ rel))
                    files)
      = Value (files
               ++ map (app projectRoot)
                      (flat_map (fun e =>
                                   if GitignoreParser.shouldIgnore
                                        parser (String.concat sep (rel ++ [fst e]))
                                   then []
                                   else Expect.kept parser (snd e) (rel ++ [fst e]))
                                sub)).
Proof.
  induction sub as [| [s x] rest IH]; intros Hsub files.
  - cbn. rewrite app_nil_r. reflexivity.
  - cbn [map fst snd forOf flat_map]. rewrite result_bind, result_visit.
    rewrite <- app_assoc, relative_below.
    destruct (Hsub (s, x) (or_introl eq_refl)) as [Hl Hx]. cbn [fst snd] in Hl, Hx.
    assert (Hrest : forall files',
               result (forOf (map fst rest)
                             (FileScanner.visit fs projectRoot parser
                                (FileScanner.scanDirectory fs projectRoot parser fuel)
                                (projectRoot ++ rel))
                             files')
               = Value (files'
                        ++ map (app projectRoot)
                               (flat_map (fun e =>
                                            if GitignoreParser.shouldIgnore
                                                 parser (String.concat sep (rel ++ [fst e]))
                                            then []
                                            else Expect.kept parser (snd e) (rel ++ [fst e]))
                                         rest))).
    { intros files'. apply IH. intros e He. apply Hsub. right; exact He. }
    destruct (GitignoreParser.shouldIgnore parser (String.concat sep (rel ++ [s]))).
    + rewrite Hrest. reflexivity.
    + specialize (Hx eq_refl). unfold stat. rewrite Hl.
      destruct x as [c | entries | | | ]; try contradiction.
      * rewrite Hrest, map_app. cbn. rewrite <- app_assoc. reflexivity.
      * rewrite Hx, Hrest, map_app, <- app_assoc. reflexivity.
      * rewrite Hrest, map_app. cbn. rewrite <- app_assoc. reflexivity.
Qed.

Lemma scanDirectory_kept (fuel : nat) :
  forall (rel : list string) (entries : list (string * node)) (files : list path),
    lookup fs (projectRoot ++ rel) = Some (Dir entries) ->
    Expect.reachable parser (Dir entries) rel = true ->
    wellFormed (Dir entries) = true ->
    height (Dir entries) <= fuel ->
    result (FileScanner.scanDirectory fs projectRoot parser fuel (projectRoot ++ rel) files)
    = Value (files ++ map (app projectRoot) (Expect.kept parser (Dir entries) rel)).
Proof.
  induction fuel as [| fuel IH]; intros rel entries files Hl Hr Hwf Hh.
  - cbn in Hh. lia.
  - rewrite result_scanDirectory_S. unfold readdir. rewrite Hl.
    cbn [Expect.kept]. apply forOf_kept.
    intros [s x] He. cbn [fst snd].
    destruct (wellFormed_Dir entries Hwf) as [Hd Hall].
    assert (Hlx : lookup fs (projectRoot ++ rel ++ [s]) = Some x).
    { rewrite app_assoc, lookup_app, Hl. cbn.
      rewrite (assoc_distinct s entries x Hd He). reflexivity. }
    split; [exact Hlx |]. intros Hig.
    pose proof (reachable_Dir parser entries rel Hr (s, x) He Hig) as Hrx.
    pose proof (proj2 (Hall (s, x) He)) as Hwx.
    pose proof (height_entry entries (s, x) He) as Hhx.
    cbn [fst snd] in Hrx, Hwx, Hhx.
    destruct x as [c | entries' | | | ]; try discriminate; [trivial | | trivial].
    intros files'. apply IH; [exact Hlx | exact Hrx | exact Hwx | lia].
Qed.

End KeptScan.

(** Every path of [kept] lies below the place it was collected from. *)
Lemma kept_below (parser : GitignoreParser.t) (n : node) :
  forall rel r, In r (Expect.kept parser n rel) -> exists rest, r = rel ++ rest.
Proof.
  induction n as [c | entries IH | | | ] using node_tree_ind; intros rel r Hin; cbn in Hin.
  - destruct Hin as [<- | []]. exists []. rewrite app_nil_r. reflexivity.
  - apply in_flat_map in Hin. destruct Hin as [e [He Hr]].
    destruct (GitignoreParser.shouldIgnore parser (String.concat sep (rel ++ [fst e])));
      [contradiction |].
    rewrite Forall_forall in IH.
    destruct (IH e He _ _ Hr) as [rest ->].
    exists (fst e :: rest). rewrite <- app_assoc. reflexivity.
  - contradiction.
  - contradiction.
  - destruct Hin as [<- | []]. exists []. rewrite app_nil_r. reflexivity.
Qed.

(** [kept] holds exactly the files about which, and about every directory
    above which, [shouldIgnore] answers false when asked with the bare
    root-relative path. *)
Lemma kept_spec (parser : GitignoreParser.t) (n : node) :
  wellFormed n = true ->
  forall rel r,
    In r (Expect.kept parser n rel)
    <-> exists rest,
        r = rel ++ rest
        /\ stat n rest = inr false
        /\ forall pre post, pre <> [] -> rest = pre ++ post ->
             GitignoreParser.shouldIgnore parser (String.concat sep (rel ++ pre)) = false.
Proof.
  assert (Hleaf : forall n0 : node,
             stat n0 [] = inr false ->
             (forall rest, stat n0 rest = inr false -> rest = []) ->
             forall rel r,
               In r [rel]
               <-> exists rest,
                   r = rel ++ rest
                   /\ stat n0 rest = inr false
                   /\ forall pre post, pre <> [] -> rest = pre ++ post ->
                        GitignoreParser.shouldIgnore parser (String.concat sep (rel ++ pre))
                        = false).
  { intros n0 Hst Hnil rel r. split.
    - intros [<- | []]. exists []. rewrite app_nil_r. repeat split; [exact Hst |].
      intros pre post Hpre Heq. symmetry in Heq. apply app_eq_nil in Heq.
      destruct Heq; contradiction.
    - intros [rest [-> [Hl _]]]. rewrite (Hnil rest Hl), app_nil_r. left; reflexivity. }
  induction n as [c | entries IH | | | ] using node_tree_ind; intros Hwf rel r.
  - cbn [Expect.kept]. apply Hleaf; [reflexivity |].
    intros [| s rest'] H; [reflexivity | discriminate].
  - destruct (wellFormed_Dir entries Hwf) as [Hd Hall].
    rewrite Forall_forall in IH. cbn [Expect.kept]. rewrite in_flat_map. split.
    + intros [[s x] [He Hr]]. cbn [fst snd] in Hr.
      destruct (GitignoreParser.shouldIgnore parser (String.concat sep (rel ++ [s])))
        eqn:Hig; [contradiction |].
      apply (IH (s, x) He (proj2 (Hall _ He))) in Hr.
      destruct Hr as [rest [-> [Hl Hpass]]].
      exists (s :: rest). split; [| split].
      * rewrite <- app_assoc. reflexivity.
      * rewrite stat_cons, (assoc_distinct s entries x Hd He). exact Hl.
      * intros pre post Hpre Heq.
        destruct pre as [| s' pre']; [contradiction |].
        injection Heq as <- Heq.
        destruct pre' as [| t pre''].
        -- exact Hig.
        -- specialize (Hpass (t :: pre'') post).
           rewrite <- app_assoc in Hpass. apply Hpass; [discriminate | exact Heq].
    + intros [rest [-> [Hl Hpass]]].
      destruct rest as [| s rest']; [discriminate |].
      rewrite stat_cons in Hl.
      destruct (assoc s entries) as [x |] eqn:Ha; [| discriminate].
      apply assoc_In in Ha. exists (s, x). split; [exact Ha |]. cbn [fst snd].
      rewrite (Hpass [s] rest'); [| discriminate | reflexivity].
      apply (IH (s, x) Ha (proj2 (Hall _ Ha))).
      exists rest'. split; [| split].
      * rewrite <- app_assoc. reflexivity.
      * exact Hl.
      * intros pre post Hpre Heq. rewrite <- app_assoc.
        apply (Hpass (s :: pre) post); [discriminate | rewrite Heq; reflexivity].
  - cbn. split; [contradiction |].
    intros [rest [_ [Hl _]]]. destruct rest; discriminate.
  - cbn. split; [contradiction |].
    intros [rest [_ [Hl _]]]. destruct rest; discriminate.
  - cbn [Expect.kept]. apply Hleaf; [reflexivity |].
    intros [| s rest'] H; [reflexivity | discriminate].
Qed.

Lemma NoDup_flat_map_kept (parser : GitignoreParser.t) (rel : list string)
      (entries : list (string * node)) :
  NoDup (map fst entries) ->
  (forall e, In e entries -> NoDup (Expect.kept parser (snd e) (rel ++ [fst e]))) ->
  NoDup (flat_map (fun e =>
                     if GitignoreParser.shouldIgnore
                          parser (String.concat sep (rel ++ [fst e]))
                     then []
                     else Expect.kept parser (snd e) (rel ++ [fst e]))
                  entries).
Proof.
  induction entries as [| [s x] rest IH]; cbn [flat_map map fst snd]; intros Hnd Heach.
  - constructor.
  - inversion Hnd as [| ? ? Hnotin Hnd']; subst.
    apply NoDup_app.
    + destruct (GitignoreParser.shouldIgnore parser (String.concat sep (rel ++ [s])));
        [constructor |].
      apply (Heach (s, x)). left; reflexivity.
    + apply IH; [exact Hnd' |]. intros e He. apply Heach. right; exact He.
    + intros r Hr Hr'. apply in_flat_map in Hr'. destruct Hr' as [[s' x'] [He' Hr']].
      cbn [fst snd] in Hr'.
      destruct (GitignoreParser.shouldIgnore parser (String.concat sep (rel ++ [s])));
        [contradiction |].
      destruct (GitignoreParser.shouldIgnore parser (String.concat sep (rel ++ [s'])));
        [contradiction |].
      apply kept_below in Hr. destruct Hr as [tail Htail].
      apply kept_below in Hr'. destruct Hr' as [tail' Htail'].
      rewrite Htail in Htail'. rewrite <- !app_assoc in Htail'.
      apply app_inv_head in Htail'. cbn in Htail'. injection Htail' as Hs _.
      apply Hnotin. rewrite Hs. change s' with (fst (s', x')). apply in_map. exact He'.
Qed.

Lemma kept_NoDup (parser : GitignoreParser.t) (n : node) :
  wellFormed n = true -> forall rel, NoDup (Expect.kept parser n rel).
Proof.
  induction n as [c | entries IH | | | ] using node_tree_ind; intros Hwf rel; cbn [Expect.kept].
  - constructor; [intros [] | constructor].
  - destruct (wellFormed_Dir entries Hwf) as [Hd Hall].
    rewrite Forall_forall in IH.
    apply NoDup_flat_map_kept.
    + apply distinct_NoDup. exact Hd.
    + intros e He. apply (IH e He). apply (Hall e He).
  - constructor.
  - constructor.
  - constructor; [intros [] | constructor].
Qed.

Lemma NoDup_map_app (root : path) (l : list (list string)) :
  NoDup l -> NoDup (map (app root) l).
Proof.
  induction 1 as [| r rest Hnotin _ IH]; cbn; constructor; [| exact IH].
  intros Hin. apply in_map_iff in Hin. destruct Hin as [r' [Heq Hr']].
  apply app_inv_head in Heq. subst r'. contradiction.
Qed.

(** X2. The walker asks [shouldIgnore] about the bare root-relative path
    of each entry, directories included.  On a well-formed tree in which
    every entry that this query lets through (it answers false for the
    entry and for every directory above it) can be stat-ed and, if a
    directory, listed, and with fuel for the depth of the tree, a scan
    returns in depth-first listing order the files that the query lets
    through.  An entry for which the query answers true contributes
    nothing, whatever lies below it, readable or not; a directory that only
    a directory-only rule would exclude is let through by the query and is
    listed. *)
Theorem scan_returns_kept_in_listing_order
        (fs : node) (projectRoot : path) (parser : GitignoreParser.t)
        (entries : list (string * node)) (fuel : nat) :
  lookup fs projectRoot = Some (Dir entries) ->
  wellFormed (Dir entries) = true ->
  Expect.reachable parser (Dir entries) [] = true ->
  height (Dir entries) <= fuel ->
  result (FileScanner.scanFiles fs projectRoot parser fuel)
  = Value (map (app projectRoot) (Expect.kept parser (Dir entries) [])).
Proof.
  intros Hl Hwf Hr Hh. unfold FileScanner.scanFiles.
  pose proof (scanDirectory_kept fs projectRoot parser fuel [] entries []) as H.
  rewrite app_nil_r in H. exact (H Hl Hr Hwf Hh).
Qed.

(** X3. Under the same conditions the result holds, each once, exactly the
    paths below the root that [stat] does not report as a directory and for
    which the walker's query answers false: [shouldIgnore] of the bare
    root-relative path of the file and of every directory above it.  This
    is not the verdict of the matcher on the file: a file that the matcher
    includes is missing from the result when the bare path of a directory
    above it is answered with "excluded". *)
Theorem scan_result_characterised
        (fs : node) (projectRoot : path) (parser : GitignoreParser.t)
        (entries : list (string * node)) (fuel : nat) :
  lookup fs projectRoot = Some (Dir entries) ->
  wellFormed (Dir entries) = true ->
  Expect.reachable parser (Dir entries) [] = true ->
  height (Dir entries) <= fuel ->
  exists files,
    result (FileScanner.scanFiles fs projectRoot parser fuel) = Value files
    /\ NoDup files
    /\ forall p : path,
        In p files
        <-> exists rel,
            p = projectRoot ++ rel
            /\ stat fs p = inr false
            /\ Observe.passes parser rel.
Proof.
  intros Hl Hwf Hr Hh.
  exists (map (app projectRoot) (Expect.kept parser (Dir entries) [])).
  assert (Hstat : forall rel, stat fs (projectRoot ++ rel) = stat (Dir entries) rel).
  { intros rel. unfold stat. rewrite lookup_app, Hl. reflexivity. }
  split; [| split].
  - unfold FileScanner.scanFiles.
    pose proof (scanDirectory_kept fs projectRoot parser fuel [] entries []) as H.
    rewrite app_nil_r in H. exact (H Hl Hr Hwf Hh).
  - apply NoDup_map_app, kept_NoDup. exact Hwf.
  - intros p. rewrite in_map_iff. split.
    + intros [rel [<- Hin]].
      apply (kept_spec parser (Dir entries) Hwf) in Hin.
      destruct Hin as [rest [Heq [Hf Hpass]]]. cbn in Heq. subst rest.
      exists rel. split; [reflexivity |]. split.
      * rewrite Hstat. exact Hf.
      * intros pre post Hpre Hrel. exact (Hpass pre post Hpre Hrel).
    + intros [rel [-> [Hf Hpass]]]. exists rel. split; [reflexivity |].
      apply (kept_spec parser (Dir entries) Hwf).
      exists rel. split; [reflexivity |]. split.
      * rewrite Hstat in Hf. exact Hf.
      * intros pre post Hpre Hrel. exact (Hpass pre post Hpre Hrel).
Qed.

Lemma scan_returns_kept_in_listing_order_witness :
  result (FileScanner.scanFiles Samples.withCache ["proj"] Samples.cacheRules 2)
  = Value [["proj"; ".github"; "ci.yml"];
           ["proj"; "src"; "a.ts"];
           ["proj"; "src"; ".env"];
           ["proj"; "main.ts"]]
  /\ result (FileScanner.scanFiles Examples.withBuildRule ["proj"]
                                    [mkRule "build" false true] 2)
     = Value [["proj"; ".gitignore"]; ["proj"; "main.ts"]]
  /\ In (Readdir ["proj"; "build"])
        (log (FileScanner.scanFiles Examples.withBuildRule ["proj"]
                                    [mkRule "build" false true] 2)).
Proof.
  split; [| split].
  - refine (scan_returns_kept_in_listing_order
              Samples.withCache ["proj"] Samples.cacheRules _ 2 eq_refl _ _ _).
    + reflexivity.
    + reflexivity.
    + cbn. lia.
  - refine (scan_returns_kept_in_listing_order
              Examples.withBuildRule ["proj"] [mkRule "build" false true] _ 2 eq_refl _ _ _).
    + reflexivity.
    + reflexivity.
    + cbn. lia.
  - vm_compute. do 5 right. left. reflexivity.
Defined.

Lemma scan_result_characterised_witness :
  GitignoreParser.shouldIgnore Samples.whitelistRules "src/a.ts" = false
  /\ GitignoreParser.shouldIgnore Samples.whitelistRules "src/" = false
  /\ GitignoreParser.shouldIgnore Samples.whitelistRules "src" = true
  /\ result (FileScanner.scanFiles Samples.whitelisted ["proj"] Samples.whitelistRules 2)
     = Value [["proj"; "keep.md"]]
  /\ exists files,
      result (FileScanner.scanFiles Samples.whitelisted ["proj"] Samples.whitelistRules 2)
      = Value files
      /\ NoDup files
      /\ forall p : path,
          In p files
          <-> exists rel,
              p = ["proj"] ++ rel
              /\ stat Samples.whitelisted p = inr false
              /\ Observe.passes Samples.whitelistRules rel.
Proof.
  split; [reflexivity |]. split; [reflexivity |]. split; [reflexivity |].
  split; [reflexivity |].
  refine (scan_result_characterised
            Samples.whitelisted ["proj"] Samples.whitelistRules _ 2 eq_refl _ _ _).
  - reflexivity.
  - reflexivity.
  - cbn. lia.
Defined.

(** X4. [scanDirectory] only pushes onto [files]: what was in the array
    stays in front, in order, and what is pushed does not depend on what
    the array held. *)
Theorem scanDirectory_only_appends (fs : node) (projectRoot : path)
        (parser : GitignoreParser.t) (fuel : nat) (dir : path) (files l : list path) :
  result (FileScanner.scanDirectory fs projectRoot parser fuel dir files) = Value l ->
  exists pushed,
    l = files ++ pushed
    /\ forall files',
        result (FileScanner.scanDirectory fs projectRoot parser fuel dir files')
        = Value (files' ++ pushed).
Proof.
  intros H. rewrite scanDirectory_pushes in H.
  destruct (result (FileScanner.scanDirectory fs projectRoot parser fuel dir []))
    as [pushed | e | ] eqn:Hempty; try discriminate.
  cbn in H. injection H as <-. exists pushed. split; [reflexivity |].
  intros files'. rewrite scanDirectory_pushes, Hempty. reflexivity.
Qed.

Lemma scanDirectory_only_appends_witness :
  exists pushed,
    [["x"]; ["proj"; "src"; "a.ts"]; ["proj"; "src"; ".env"]] = [["x"]] ++ pushed
    /\ forall files',
        result (FileScanner.scanDirectory Samples.withCache ["proj"] Samples.cacheRules 1
                                          ["proj"; "src"] files')
        = Value (files' ++ pushed).
Proof.
  apply (scanDirectory_only_appends Samples.withCache ["proj"] Samples.cacheRules 1
                                    ["proj"; "src"] [["x"]]).
  reflexivity.
Defined.

(** ** Hidden files *)

Lemma split_without_separator (s : string) :
  existsb (Ascii.eqb "/") (list_ascii_of_string s) = false -> split "/" s = [s].
Proof.
  induction s as [| a s' IH]; cbn -[Ascii.eqb]; intros H; [reflexivity |].
  apply orb_false_elim in H. destruct H as [Ha Hs].
  rewrite Ascii.eqb_sym, Ha, (IH Hs). reflexivity.
Qed.

Lemma split_append (s u : string) :
  existsb (Ascii.eqb "/") (list_ascii_of_string s) = false ->
  split "/" (s ++ String "/" u) = s :: split "/" u.
Proof.
  induction s as [| a s' IH]; cbn -[Ascii.eqb]; intros H; [reflexivity |].
  apply orb_false_elim in H. destruct H as [Ha Hs].
  rewrite Ascii.eqb_sym, Ha, (IH Hs). reflexivity.
Qed.

(** Splitting a joined path at the separator gives back its segments. *)
Lemma split_concat (rel : list string) :
  rel <> [] ->
  Forall (fun s => nameOk s = true) rel ->
  split "/" (String.concat sep rel) = rel.
Proof.
  intros Hne Hok. induction Hok as [| s rest Hs Hrest IH]; [contradiction |].
  assert (Hns : existsb (Ascii.eqb "/") (list_ascii_of_string s) = false).
  { unfold nameOk in Hs. apply andb_prop in Hs. destruct Hs as [_ Hs].
    apply negb_true_iff in Hs. exact Hs. }
  destruct rest as [| t rest'].
  - cbn. apply split_without_separator. exact Hns.
  - change (String.concat sep (s :: t :: rest'))
      with (s ++ String "/" (String.concat sep (t :: rest')))%string.
    rewrite (split_append s _ Hns), IH; [reflexivity | discriminate].
Qed.

Lemma names_on_path (t : node) :
  wellFormed t = true ->
  forall rel, lookup t rel <> None -> Forall (fun s => nameOk s = true) rel.
Proof.
  intros Hwf rel. revert t Hwf. induction rel as [| s rel' IH]; intros t Hwf Hl.
  - constructor.
  - destruct t as [c | entries | | | ]; try (exfalso; apply Hl; reflexivity).
    cbn in Hl. destruct (assoc s entries) as [x |] eqn:Ha; [| contradiction].
    apply assoc_In in Ha.
    destruct (wellFormed_Dir entries Hwf) as [_ Hall].
    destruct (Hall (s, x) Ha) as [Hs Hx].
    constructor; [exact Hs | exact (IH x Hx Hl)].
Qed.

(** X5. For an entry of the project tree [t], [isHiddenFile] of its
    root-relative path says whether one of the names on the way from the
    root to the entry starts with a dot (and is neither [.] nor [..]);
    where the root itself lies, below a hidden directory or not, plays no
    part. *)
Theorem isHiddenFile_of_project_entry (projectRoot : path) (t : node)
        (rel : list string) :
  wellFormed t = true ->
  rel <> [] ->
  lookup t rel <> None ->
  Zipper.isHiddenFile (relative projectRoot (projectRoot ++ rel))
  = existsb Expect.hiddenName rel.
Proof.
  intros Hwf Hne Hl. rewrite relative_below. unfold Zipper.isHiddenFile.
  rewrite (split_concat rel Hne (names_on_path t Hwf rel Hl)). reflexivity.
Qed.

Lemma isHiddenFile_of_project_entry_witness :
  Zipper.isHiddenFile (relative [".config"; "proj"] ([".config"; "proj"] ++ ["src"; "a.ts"]))
  = existsb Expect.hiddenName ["src"; "a.ts"].
Proof.
  apply (isHiddenFile_of_project_entry
           [".config"; "proj"] (Dir [("src", Dir [("a.ts", File "a")])])).
  - reflexivity.
  - discriminate.
  - discriminate.
Defined.

(** ** Filling the archive *)

Lemma result_tryCatch {A : Type} (m : eff A) (handler : errno -> eff A) :
  result (tryCatch m handler)
  = match result m with
    | Thrown e => result (handler e)
    | other => other
    end.
Proof.
  destruct m as [l [a | e | ]]; cbn; try reflexivity.
  destruct (handler e); reflexivity.
Qed.

Section Archive.

Variable fs : node.
Variable projectRoot : path.
Variable options : RequiredZipOptions.

Lemma addFilesToArchive_result (files : list path) :
  forall archive,
    result (Zipper.addFilesToArchive fs projectRoot options archive files)
    = Value (archive
             ++ map (Expect.entryOf projectRoot)
                    (filter (Expect.archivable fs projectRoot options) files)).
Proof.
  unfold Zipper.addFilesToArchive.
  induction files as [| filePath rest IH]; intros archive; cbn [forOf filter map].
  - cbn. rewrite app_nil_r. reflexivity.
  - rewrite result_bind, result_tryCatch. unfold Expect.archivable.
    destruct (negb (rIncludeHidden options)
              && Zipper.isHiddenFile (relative projectRoot filePath)).
    + cbn [negb andb result ret snd]. apply IH.
    + rewrite result_bind, result_call. cbn [negb andb].
      unfold existsSync.
      destruct (stat fs filePath) as [e | [|]] eqn:Hst; cbn [negb andb].
      * cbn. apply IH.
      * rewrite result_bind, result_call. cbn. apply IH.
      * rewrite result_bind, result_call. cbn [result ret snd].
        rewrite IH. cbn [map]. rewrite <- app_assoc. reflexivity.
Qed.

End Archive.

(** X6. [addFilesToArchive] never throws.  It leaves the entries already in
    the archive in place and adds, in the order of [files], one entry for
    each file that is not hidden (or hidden files are asked for), exists,
    and is not a directory; the entry is named by the root-relative path.
    A file that is missing or cannot be stat-ed is passed over and does not
    stop the others. *)
Theorem addFilesToArchive_adds_archivable
        (fs : node) (projectRoot : path) (options : RequiredZipOptions)
        (archive : list Zipper.entry) (files : list path) :
  result (Zipper.addFilesToArchive fs projectRoot options archive files)
  = Value (archive
           ++ map (Expect.entryOf projectRoot)
                  (filter (Expect.archivable fs projectRoot options) files)).
Proof. apply addFilesToArchive_result. Qed.

(** X7. Adding the files of two lists one after the other is adding the
    files of the joined list: the archive can be filled in portions. *)
Theorem addFilesToArchive_in_portions
        (fs : node) (projectRoot : path) (options : RequiredZipOptions)
        (archive : list Zipper.entry) (files1 files2 : list path) :
  result (bind (Zipper.addFilesToArchive fs projectRoot options archive files1)
               (fun archive' =>
                  Zipper.addFilesToArchive fs projectRoot options archive' files2))
  = result (Zipper.addFilesToArchive fs projectRoot options archive (files1 ++ files2)).
Proof.
  rewrite result_bind, (addFilesToArchive_result fs projectRoot options files1 archive).
  cbv beta iota. rewrite !addFilesToArchive_result.
  rewrite filter_app, map_app, app_assoc. reflexivity.
Qed.

(** X8. Scanning and then filling an empty archive with the result, on an
    unchanged filesystem: a failed scan fails the whole; otherwise every
    scanned file is archived under its root-relative name, in scan order,
    except that files on a hidden path are left out unless hidden files
    are asked for.  Nothing is lost to the existence and directory checks
    of the archiver. *)
Theorem scan_then_archive (fs : node) (projectRoot : path) (parser : GitignoreParser.t)
        (options : RequiredZipOptions) (fuel : nat) :
  result (files <- FileScanner.scanFiles fs projectRoot parser fuel ;;
          Zipper.addFilesToArchive fs projectRoot options [] files)
  = match result (FileScanner.scanFiles fs projectRoot parser fuel) with
    | Value files =>
        Value (map (Expect.entryOf projectRoot)
                   (filter (fun filePath =>
                              rIncludeHidden options
                              || negb (Zipper.isHiddenFile (relative projectRoot filePath)))
                           files))
    | Thrown e => Thrown e
    | OutOfFuel => OutOfFuel
    end.
Proof.
  rewrite result_bind.
  destruct (result (FileScanner.scanFiles fs projectRoot parser fuel))
    as [files | e | ] eqn:Hscan; try reflexivity.
  rewrite addFilesToArchive_result. cbn [app]. f_equal. f_equal.
  apply filter_ext_in. intros filePath Hin.
  pose proof (scanDirectory_sound fs projectRoot parser fuel [] [] files
                                  (passes_nil parser)) as Hsound.
  rewrite app_nil_r in Hsound. specialize (Hsound Hscan (Forall_nil _)).
  rewrite Forall_forall in Hsound.
  destruct (Hsound filePath Hin) as [rel [_ [_ [Hst _]]]].
  unfold Expect.archivable, existsSync. rewrite Hst.
  destruct (rIncludeHidden options),
    (Zipper.isHiddenFile (relative projectRoot filePath)); reflexivity.
Qed.

(** ** The preview list *)

(** X9. [getFileList] does not depend on where the project lies: the same
    tree at two places on disk gives the same list of root-relative paths,
    or the same error. *)
Theorem getFileList_same_at_every_root
        (fs1 fs2 : node) (root1 root2 : path) (t : node)
        (parser : GitignoreParser.t) (fuel : nat) :
  lookup fs1 root1 = Some t ->
  lookup fs2 root2 = Some t ->
  result (Zipper.getFileList fs1 root1 parser fuel)
  = result (Zipper.getFileList fs2 root2 parser fuel).
Proof.
  intros H1 H2. unfold Zipper.getFileList, FileScanner.scanFiles.
  rewrite !result_bind.
  destruct (sameRun_scanDirectory fs1 fs2 root1 root2 t H1 H2 parser fuel [] [] [])
    as [_ Hr].
  rewrite !app_nil_r in Hr.
  destruct (result (FileScanner.scanDirectory fs1 root1 parser fuel root1 []))
    as [l1 | e1 | ],
    (result (FileScanner.scanDirectory fs2 root2 parser fuel root2 []))
    as [l2 | e2 | ]; try contradiction; try reflexivity.
  - destruct Hr as [new [-> ->]]. cbn. f_equal.
    rewrite !map_map. apply map_ext. intros rel. rewrite !relative_below. reflexivity.
  - congruence.
Qed.

Lemma getFileList_same_at_every_root_witness :
  result (Zipper.getFileList Examples.plain ["home"; "proj"] [mkRule "*.md" false false] 2)
  = result (Zipper.getFileList Examples.plainElsewhere ["srv"] [mkRule "*.md" false false] 2).
Proof.
  apply (getFileList_same_at_every_root
           Examples.plain Examples.plainElsewhere ["home"; "proj"] ["srv"]
           (Dir [("README.md", File "r");
                 ("src", Dir [("a.ts", File "a"); ("b.ts", File "b")]);
                 ("empty", Dir [])])).
  - reflexivity.
  - reflexivity.
Defined.

(** ** Validation *)

(** A loop runs out of fuel only when one of its passes does. *)
Lemma forOf_terminates {A S : Type} (body : A -> S -> eff S) (items : list A) :
  (forall x s, In x items -> result (body x s) <> OutOfFuel) ->
  forall s, result (forOf items body s) <> OutOfFuel.
Proof.
  induction items as [| x rest IH]; intros Hbody s; cbn [forOf].
  - cbn. discriminate.
  - rewrite result_bind.
    pose proof (Hbody x s (or_introl eq_refl)) as Hx.
    destruct (result (body x s)) as [s' | e | ]; [| discriminate | congruence].
    apply IH. intros y s'' Hy. apply Hbody. right; exact Hy.
Qed.

(** A walk with more fuel than the tree below [dir] is high comes to an
    end: it returns or it throws. *)
Lemma scanDirectory_terminates (fs : node) (projectRoot : path)
      (parser : GitignoreParser.t) (fuel : nat) :
  forall (dir : path) (files : list path),
    0 < fuel ->
    (forall n, lookup fs dir = Some n -> height n < fuel) ->
    result (FileScanner.scanDirectory fs projectRoot parser fuel dir files) <> OutOfFuel.
Proof.
  induction fuel as [| fuel IH]; intros dir files Hpos Hh; [lia |].
  rewrite result_scanDirectory_S. unfold readdir.
  destruct (lookup fs dir) as [[c | entries | | | ] |] eqn:Hl; try discriminate.
  specialize (Hh _ eq_refl).
  apply forOf_terminates. intros item files' Hitem.
  rewrite result_visit.
  destruct (GitignoreParser.shouldIgnore parser (relative projectRoot (dir ++ [item])));
    [discriminate |].
  unfold stat.
  assert (Hchild : lookup fs (dir ++ [item]) = assoc item entries).
  { rewrite lookup_app, Hl. cbn. destruct (assoc item entries); reflexivity. }
  rewrite Hchild.
  destruct (assoc item entries) as [x |] eqn:Ha; [| discriminate].
  pose proof (height_entry entries (item, x) (assoc_In item entries x Ha)) as Hx.
  cbn [snd] in Hx.
  assert (Hrec : result (FileScanner.scanDirectory fs projectRoot parser fuel
                                                   (dir ++ [item]) files') <> OutOfFuel).
  { apply IH; [lia |]. intros n Hn. rewrite Hchild in Hn. injection Hn as <-. lia. }
  destruct x as [c | entries' | | | ]; try discriminate; exact Hrec.
Qed.



Example validateProject_report_of_lockedBelowRoot :
  result (Zipper.validateProject Samples.lockedBelowRoot ["proj"] []
                                 (fun f => (f, Some "Error: EACCES")) 2)
  = Value (false, ["Output directory is not writable: Error: EACCES";
                   "Error scanning files: Error: EACCES"]).
Proof. reflexivity. Qed.

(** X11. What a report says.  [valid] is true exactly when there are no
    issues; and a valid report means that the root is a directory, the
    write test caught nothing, and the scan (of the filesystem as the write
    test left it) returned at least one file. *)
Theorem validateProject_report
        (fs : node) (projectRoot : path) (parser : GitignoreParser.t)
        (writeTest : node -> node * option string) (fuel : nat)
        (valid : bool) (issues : list string) :
  result (Zipper.validateProject fs projectRoot parser writeTest fuel)
  = Value (valid, issues) ->
  (valid = true <-> issues = [])
  /\ (valid = true ->
      stat fs projectRoot = inr true
      /\ snd (writeTest fs) = None
      /\ exists files,
          files <> []
          /\ result (FileScanner.scanFiles (fst (writeTest fs)) projectRoot parser fuel)
             = Value files).
Proof.
  unfold Zipper.validateProject, existsSync.
  rewrite result_bind, result_call.
  destruct (stat fs projectRoot) as [e' | isDir] eqn:Hs; cbn [negb].
  - cbn. intros H; injection H as <- <-. split; [split |]; discriminate.
  - rewrite result_bind, result_call.
    destruct isDir; cbn [negb];
      [| cbn; intros H; injection H as <- <-; split; [split |]; discriminate].
    destruct (writeTest fs) as [fs' caught]. cbn [fst snd].
    rewrite result_bind, result_tryCatch, result_bind.
    destruct (result (FileScanner.scanFiles fs' projectRoot parser fuel))
      as [files | e' | ] eqn:Hscan.
    + destruct files as [| f files']; cbn [List.length Nat.eqb].
      * cbn. intros H; injection H as <- <-.
        destruct caught; cbn; split; [split | | split |]; discriminate.
      * destruct caught as [msg |]; cbn; intros H; injection H as <- <-.
        -- split; [split |]; discriminate.
        -- split; [split; reflexivity |]. intros _.
           repeat split. exists (f :: files'). split; [discriminate | reflexivity].
    + cbn. intros H; injection H as <- <-.
      destruct caught; cbn; split; [split | | split |]; discriminate.
    + discriminate.
Qed.

Lemma validateProject_report_witness :
  (true = true <-> @nil string = [])
  /\ (true = true ->
      stat Examples.plain ["home"; "proj"] = inr true
      /\ snd ((fun f : node => (f, @None string)) Examples.plain) = None
      /\ exists files,
          files <> []
          /\ result (FileScanner.scanFiles
                       (fst ((fun f : node => (f, @None string)) Examples.plain))
                       ["home"; "proj"] [] 2)
             = Value files).
Proof.
  apply (validateProject_report Examples.plain ["home"; "proj"] []
                                (fun f => (f, None)) 2 true []).
  reflexivity.
Defined.

(** ** Loading the rules *)



(** ** Option defaults, again *)

Lemma or_number_again (x : option Js.number) (d : Js.number) :
  Js.or_number (Some (Js.or_number x d)) d = Js.or_number x d.
Proof.
  unfold Js.or_number. destruct x as [n |].
  - destruct (Js.truthy_number n) eqn:Hn.
    + rewrite Hn. reflexivity.
    + destruct (Js.truthy_number d); reflexivity.
  - destruct (Js.truthy_number d); reflexivity.
Qed.

Lemma or_string_again (x : option string) (d : string) :
  Js.or_string (Some (Js.or_string x d)) d = Js.or_string x d.
Proof.
  unfold Js.or_string. destruct x as [s |].
  - destruct (Js.truthy_string s) eqn:Hs.
    + rewrite Hs. reflexivity.
    + destruct (Js.truthy_string d); reflexivity.
  - destruct (Js.truthy_string d); reflexivity.
Qed.

Lemma or_bool_again (x : option bool) (d : bool) :
  Js.or_bool (Some (Js.or_bool x d)) d = Js.or_bool x d.
Proof. destruct x as [[|] |], d; reflexivity. Qed.

Lemma or_number_truthy (x : option Js.number) (d : Js.number) :
  Js.truthy_number d = true -> Js.truthy_number (Js.or_number x d) = true.
Proof.
  intros Hd. unfold Js.or_number. destruct x as [n |]; [| exact Hd].
  destruct (Js.truthy_number n) eqn:Hn; assumption.
Qed.

Lemma or_string_nonempty (x : option string) (d : string) :
  d <> EmptyString -> Js.or_string x d <> EmptyString.
Proof.
  intros Hd. unfold Js.or_string, Js.truthy_string. destruct x as [s |]; [| exact Hd].
  destruct (String.eqb_spec s EmptyString); cbn; assumption.
Qed.

(** X13. Whatever options are given, the merged options hold a compression
    level that is neither [0] nor [NaN] and an output path and name that
    are not empty; no range is enforced on the level, every non-zero
    integer is kept; and merging the merged options again changes
    nothing. *)
Theorem mergeDefaultOptions_invariants (options : ZipOptions) :
  Js.truthy_number (rCompressionLevel (Zipper.mergeDefaultOptions options)) = true
  /\ rOutputPath (Zipper.mergeDefaultOptions options) <> EmptyString
  /\ rOutputName (Zipper.mergeDefaultOptions options) <> EmptyString
  /\ (forall z : Z, z <> 0%Z ->
      compressionLevel options = Some (Js.Int z) ->
      rCompressionLevel (Zipper.mergeDefaultOptions options) = Js.Int z)
  /\ Zipper.mergeDefaultOptions (Expect.asOptions (Zipper.mergeDefaultOptions options))
     = Zipper.mergeDefaultOptions options.
Proof.
  unfold Zipper.mergeDefaultOptions, Expect.asOptions;
    cbn [outputPath outputName includeHidden compressionLevel
         rOutputPath rOutputName rIncludeHidden rCompressionLevel].
  split; [| split; [| split; [| split]]].
  - apply or_number_truthy. reflexivity.
  - apply or_string_nonempty. discriminate.
  - apply or_string_nonempty. discriminate.
  - intros z Hz ->. cbn.
    destruct (Z.eqb_spec z 0) as [-> | _]; [contradiction | reflexivity].
  - rewrite or_number_again, !or_string_again, or_bool_again. reflexivity.
Qed.

Lemma mergeDefaultOptions_invariants_witness :
  rCompressionLevel
    (Zipper.mergeDefaultOptions (mkZipOptions None None None (Some (Js.Int 42))))
  = Js.Int 42.
Proof.
  apply (proj1 (proj2 (proj2 (proj2
           (mergeDefaultOptions_invariants
              (mkZipOptions None None None (Some (Js.Int 42)))))))).
  - discriminate.
  - reflexivity.
Defined.

(** ** Project statistics *)

Lemma count_bump (ext k : string) (fileTypes : list (string * nat)) :
  Stats.count k (Stats.bump ext fileTypes)
  = if String.eqb ext k then S (Stats.count k fileTypes) else Stats.count k fileTypes.
Proof.
  induction fileTypes as [| [k' v] rest IH]; cbn.
  - destruct (String.eqb ext k); reflexivity.
  - destruct (String.eqb_spec k' ext) as [-> | Hne]; cbn.
    + destruct (String.eqb ext k); reflexivity.
    + destruct (String.eqb_spec k' k) as [-> | Hne'].
      * destruct (String.eqb_spec ext k) as [-> | _]; [contradiction | reflexivity].
      * exact IH.
Qed.

Lemma sum_bump (ext : string) (fileTypes : list (string * nat)) :
  list_sum (map snd (Stats.bump ext fileTypes)) = S (list_sum (map snd fileTypes)).
Proof.
  unfold list_sum.
  induction fileTypes as [| [k v] rest IH]; cbn; [reflexivity |].
  destruct (String.eqb k ext); cbn; [reflexivity |].
  rewrite IH. lia.
Qed.

Lemma keys_bump (ext : string) (fileTypes : list (string * nat)) :
  map fst (Stats.bump ext fileTypes)
  = if existsb (String.eqb ext) (map fst fileTypes)
    then map fst fileTypes
    else map fst fileTypes ++ [ext].
Proof.
  induction fileTypes as [| [k v] rest IH]; cbn; [reflexivity |].
  rewrite (String.eqb_sym ext k).
  destruct (String.eqb k ext); cbn; [reflexivity |].
  rewrite IH. destruct (existsb (String.eqb ext) (map fst rest)); reflexivity.
Qed.

Lemma NoDup_bump (ext : string) (fileTypes : list (string * nat)) :
  NoDup (map fst fileTypes) -> NoDup (map fst (Stats.bump ext fileTypes)).
Proof.
  intros H. rewrite keys_bump.
  destruct (existsb (String.eqb ext) (map fst fileTypes)) eqn:E; [exact H |].
  apply NoDup_app; [exact H | constructor; [intros [] | constructor] |].
  intros k Hk [<- | []]. apply (distinct_notin ext (map fst fileTypes)); assumption.
Qed.

Section StatsFacts.

Variable fs : node.
Variable size : path -> nat.
Variable toLowerCase : string -> string.

Local Notation "'tally'" :=
  (fun (totals : nat * list (string * nat)) (file : path) =>
     (fst totals + size file, Stats.bump (Stats.extOf toLowerCase file) (snd totals))).

Lemma stats_loop (files : list path) :
  Forall (fun file => stat fs file = inr false) files ->
  forall totals,
    result (forOf files
              (fun file totals =>
                 tryCatch
                   (fileSize <- call (Stat file) (Stats.statSize fs size file) ;;
                    ret (fst totals + fileSize,
                         Stats.bump (Stats.extOf toLowerCase file) (snd totals)))
                   (fun _ => ret totals))
              totals)
    = Value (fold_left tally files totals).
Proof.
  induction 1 as [| file rest Hst _ IH]; intros totals; cbn [forOf fold_left].
  - reflexivity.
  - rewrite result_bind, result_tryCatch, result_bind, result_call.
    unfold Stats.statSize. rewrite Hst. cbn [result ret snd]. apply IH.
Qed.

Lemma tally_count (files : list path) (ext : string) :
  forall totals,
    Stats.count ext (snd (fold_left tally files totals))
    = Stats.count ext (snd totals)
      + List.length (filter (fun file => String.eqb (Stats.extOf toLowerCase file) ext) files).
Proof.
  induction files as [| file rest IH]; intros totals; cbn [fold_left filter].
  - cbn. lia.
  - rewrite IH. cbn [snd]. rewrite count_bump.
    destruct (String.eqb (Stats.extOf toLowerCase file) ext); cbn [List.length]; lia.
Qed.

Lemma tally_sum (files : list path) :
  forall totals,
    list_sum (map snd (snd (fold_left tally files totals)))
    = list_sum (map snd (snd totals)) + List.length files.
Proof.
  induction files as [| file rest IH]; intros totals; cbn [fold_left List.length].
  - lia.
  - rewrite IH. cbn [snd]. rewrite sum_bump. lia.
Qed.

Lemma tally_size (files : list path) :
  forall totals,
    fst (fold_left tally files totals) = fst totals + list_sum (map size files).
Proof.
  induction files as [| file rest IH]; intros totals; cbn [fold_left map].
  - cbn. lia.
  - rewrite IH. cbn [fst].
    change (list_sum (size file :: map size rest))
      with (size file + list_sum (map size rest)).
    lia.
Qed.

Lemma tally_NoDup (files : list path) :
  forall totals,
    NoDup (map fst (snd totals)) ->
    NoDup (map fst (snd (fold_left tally files totals))).
Proof.
  induction files as [| file rest IH]; intros totals H; cbn [fold_left].
  - exact H.
  - apply IH. cbn [snd]. apply NoDup_bump. exact H.
Qed.

End StatsFacts.



(** ** Preview and archive *)

Lemma map_filter_through {A B : Type} (f : A -> B) (keep : B -> bool) (l : list A) :
  map f (filter (fun a => keep (f a)) l) = filter keep (map f l).
Proof.
  induction l as [| a rest IH]; cbn; [reflexivity |].
  destruct (keep (f a)); cbn; rewrite IH; reflexivity.
Qed.

(** X15. The preview of [getFileList] and the archive agree up to hidden
    files: the names of the entries that scanning and archiving produce are
    the names of the preview, in the same order, without those on a hidden
    path unless hidden files are asked for.  The preview itself never
    leaves hidden files out. *)
Theorem archive_names_are_preview_names
        (fs : node) (projectRoot : path) (parser : GitignoreParser.t)
        (options : RequiredZipOptions) (fuel : nat) (names : list string) :
  result (Zipper.getFileList fs projectRoot parser fuel) = Value names ->
  exists archive,
    result (files <- FileScanner.scanFiles fs projectRoot parser fuel ;;
            Zipper.addFilesToArchive fs projectRoot options [] files)
    = Value archive
    /\ map Zipper.name archive
       = filter (fun n => rIncludeHidden options || negb (Zipper.isHiddenFile n)) names.
Proof.
  unfold Zipper.getFileList. rewrite !result_bind.
  destruct (result (FileScanner.scanFiles fs projectRoot parser fuel))
    as [files | e | ] eqn:Hscan; try discriminate.
  cbn [result ret snd]. intros H. injection H as <-.
  rewrite addFilesToArchive_result. cbn [app]. eexists. split; [reflexivity |].
  rewrite map_map. cbn [Expect.entryOf Zipper.name].
  rewrite <- (map_filter_through (relative projectRoot)
                (fun n => rIncludeHidden options || negb (Zipper.isHiddenFile n))).
  f_equal. apply filter_ext_in. intros filePath Hin.
  pose proof (scanDirectory_sound fs projectRoot parser fuel [] [] files
                                  (passes_nil parser)) as Hsound.
  rewrite app_nil_r in Hsound. specialize (Hsound Hscan (Forall_nil _)).
  rewrite Forall_forall in Hsound.
  destruct (Hsound filePath Hin) as [rel [_ [_ [Hst _]]]].
  unfold Expect.archivable, existsSync. rewrite Hst.
  destruct (rIncludeHidden options),
    (Zipper.isHiddenFile (relative projectRoot filePath)); reflexivity.
Qed.

Lemma archive_names_are_preview_names_witness :
  exists archive,
    result (files <- FileScanner.scanFiles Samples.withCache ["proj"] Samples.cacheRules 2 ;;
            Zipper.addFilesToArchive Samples.withCache ["proj"]
                                     (mkRequired "./dist" "project.zip" false (Js.Int 6))
                                     [] files)
    = Value archive
    /\ map Zipper.name archive
       = filter (fun n => false || negb (Zipper.isHiddenFile n))
                [".github/ci.yml"; "src/a.ts"; "src/.env"; "main.ts"].
Proof.
  apply (archive_names_are_preview_names
           Samples.withCache ["proj"] Samples.cacheRules
           (mkRequired "./dist" "project.zip" false (Js.Int 6)) 2).
  reflexivity.
Defined.

(** ** The walker: no path twice *)

Lemma statted_app (l l' : list event) :
  Expect.statted (l ++ l') = Expect.statted l ++ Expect.statted l'.
Proof. unfold Expect.statted. apply flat_map_app. Qed.

Lemma listed_app (l l' : list event) :
  Expect.listed (l ++ l') = Expect.listed l ++ Expect.listed l'.
Proof. unfold Expect.listed. apply flat_map_app. Qed.

Lemma wellFormed_lookup (t : node) :
  wellFormed t = true ->
  forall rel n, lookup t rel = Some n -> wellFormed n = true.
Proof.
  intros Hwf rel. revert t Hwf. induction rel as [| s rel' IH]; intros t Hwf n Hl.
  - cbn in Hl. injection Hl as <-. exact Hwf.
  - destruct t as [c | entries | | | ]; try discriminate.
    cbn in Hl. destruct (assoc s entries) as [x |] eqn:Ha; [| discriminate].
    apply assoc_In in Ha.
    destruct (wellFormed_Dir entries Hwf) as [_ Hall].
    exact (IH x (proj2 (Hall (s, x) Ha)) n Hl).
Qed.

Section Once.

Variable fs : node.
Variable projectRoot : path.
Variable parser : GitignoreParser.t.

(** The log of a run that works below [q]: nothing is stat-ed or listed
    twice, and everything stat-ed or listed lies at or below one of the
    entries [names] of [q]. *)
Local Notation "'tidy'" :=
  (fun (q : path) (names : list string) (l : list event) =>
     NoDup (Expect.statted l) /\ NoDup (Expect.listed l)
     /\ (forall p, In p (Expect.statted l ++ Expect.listed l) ->
                   exists item rest, In item names /\ p = q ++ item :: rest)).

Lemma tidy_forOf (dir : path) (body : string -> list path -> eff (list path)) :
  forall items,
    NoDup items ->
    (forall item s, In item items -> tidy dir [item] (log (body item s))) ->
    forall s, tidy dir items (log (forOf items body s)).
Proof.
  induction items as [| item rest IH]; intros Hnd Hbody s; cbn [forOf].
  - cbn. repeat split; try constructor. intros p [].
  - inversion Hnd as [| ? ? Hnotin Hnd']; subst.
    destruct (Hbody item s (or_introl eq_refl)) as [Hs1 [Hl1 Hu1]].
    rewrite log_bind.
    destruct (result (body item s)) as [s' | e | ].
    + destruct (IH Hnd' (fun i t Hi => Hbody i t (or_intror Hi)) s') as [Hs2 [Hl2 Hu2]].
      rewrite statted_app, listed_app.
      assert (Hdisj : forall p,
                 In p (Expect.statted (log (body item s))
                       ++ Expect.listed (log (body item s))) ->
                 In p (Expect.statted (log (forOf rest body s'))
                       ++ Expect.listed (log (forOf rest body s'))) -> False).
      { intros p H1 H2.
        destruct (Hu1 p H1) as [i1 [r1 [[<- | []] Hp1]]].
        destruct (Hu2 p H2) as [i2 [r2 [Hi2 Hp2]]].
        rewrite Hp1 in Hp2. apply app_inv_head in Hp2. injection Hp2 as -> _.
        contradiction. }
      split; [| split].
      * apply NoDup_app; [exact Hs1 | exact Hs2 |].
        intros p H1 H2. apply (Hdisj p); apply in_or_app; left; assumption.
      * apply NoDup_app; [exact Hl1 | exact Hl2 |].
        intros p H1 H2. apply (Hdisj p); apply in_or_app; right; assumption.
      * intros p Hp.
        assert (Hcases : In p (Expect.statted (log (body item s))
                               ++ Expect.listed (log (body item s)))
                         \/ In p (Expect.statted (log (forOf rest body s'))
                                  ++ Expect.listed (log (forOf rest body s')))).
        { apply in_app_or in Hp. destruct Hp as [Hp | Hp]; apply in_app_or in Hp;
            destruct Hp as [Hp | Hp];
            [left | right | left | right]; apply in_or_app; auto. }
        destruct Hcases as [H1 | H2].
        -- destruct (Hu1 p H1) as [i [r [[<- | []] Hp1]]].
           exists item, r. split; [left; reflexivity | exact Hp1].
        -- destruct (Hu2 p H2) as [i [r [Hi Hp2]]].
           exists i, r. split; [right; exact Hi | exact Hp2].
    + split; [exact Hs1 | split; [exact Hl1 |]].
      intros p Hp. destruct (Hu1 p Hp) as [i [r [[<- | []] Hp1]]].
      exists item, r. split; [left; reflexivity | exact Hp1].
    + split; [exact Hs1 | split; [exact Hl1 |]].
      intros p Hp. destruct (Hu1 p Hp) as [i [r [[<- | []] Hp1]]].
      exists item, r. split; [left; reflexivity | exact Hp1].
Qed.

Lemma scanDirectory_tidy (fuel : nat) :
  forall (dir : path) (n : node) (files : list path),
    lookup fs dir = Some n ->
    wellFormed n = true ->
    exists names,
      NoDup (Expect.statted
               (log (FileScanner.scanDirectory fs projectRoot parser fuel dir files)))
      /\ (forall p,
            In p (Expect.statted
                    (log (FileScanner.scanDirectory fs projectRoot parser fuel dir files))) ->
            exists item rest, In item names /\ p = dir ++ item :: rest)
      /\ NoDup (Expect.listed
                  (log (FileScanner.scanDirectory fs projectRoot parser fuel dir files)))
      /\ (forall p,
            In p (Expect.listed
                    (log (FileScanner.scanDirectory fs projectRoot parser fuel dir files))) ->
            p = dir \/ exists item rest, In item names /\ p = dir ++ item :: rest).
Proof.
  induction fuel as [| fuel IH]; intros dir n files Hl Hwf.
  - exists []. cbn.
    split; [constructor |]. split; [intros p [] |]. split; [constructor | intros p []].
  - rewrite scanDirectory_S, log_bind, result_call.
    unfold readdir. rewrite Hl.
    destruct n as [c | entries | | | ];
      try (exists []; cbn;
           split; [constructor |]; split; [intros p [] |];
           split; [constructor; [intros [] | constructor] |];
           intros p [<- | []]; left; reflexivity).
    exists (map fst entries).
    destruct (wellFormed_Dir entries Hwf) as [Hd Hall].
    cbn [call log fst].
    pose proof (tidy_forOf dir
                  (FileScanner.visit fs projectRoot parser
                     (FileScanner.scanDirectory fs projectRoot parser fuel) dir)
                  (map fst entries) (distinct_NoDup _ Hd)) as Hloop.
    assert (Hbody : forall item s,
               In item (map fst entries) ->
               tidy dir [item]
                    (log (FileScanner.visit fs projectRoot parser
                            (FileScanner.scanDirectory fs projectRoot parser fuel)
                            dir item s))).
    { intros item s Hin. unfold FileScanner.visit, join.
      rewrite log_bind.
      assert (Hq : log (FileScanner.shouldIgnore
                          parser (relative projectRoot (dir ++ [item])))
                   = [Query (relative projectRoot (dir ++ [item]))]) by reflexivity.
      assert (Hqr : result (FileScanner.shouldIgnore
                              parser (relative projectRoot (dir ++ [item])))
                    = Value (GitignoreParser.shouldIgnore
                               parser (relative projectRoot (dir ++ [item]))))
        by reflexivity.
      rewrite Hq, Hqr.
      destruct (GitignoreParser.shouldIgnore parser (relative projectRoot (dir ++ [item]))).
      - cbn. split; [constructor |]. split; [constructor | intros p []].
      - rewrite log_bind, result_call.
        destruct (stat fs (dir ++ [item])) as [e | [|]] eqn:Hst.
        + cbn. split; [constructor; [intros [] | constructor] |].
          split; [constructor |].
          intros p [<- | []]. exists item, []. split; [left; reflexivity | reflexivity].
        + cbn [call log fst app].
          assert (Hx : exists x, lookup fs (dir ++ [item]) = Some x /\ wellFormed x = true).
          { unfold stat in Hst.
            destruct (lookup fs (dir ++ [item])) as [x |] eqn:Hlx; [| discriminate].
            exists x. split; [reflexivity |].
            rewrite lookup_app, Hl in Hlx. cbn in Hlx.
            destruct (assoc item entries) as [y |] eqn:Ha; [| discriminate].
            injection Hlx as ->. apply assoc_In in Ha.
            exact (proj2 (Hall (item, x) Ha)). }
          destruct Hx as [x [Hlx Hwx]].
          destruct (IH (dir ++ [item]) x s Hlx Hwx) as [names [Hs [Hsu [Hli Hlu]]]].
          change (Expect.statted
                    ([Query (relative projectRoot (dir ++ [item]))]
                     ++ Stat (dir ++ [item])
                        :: log (FileScanner.scanDirectory fs projectRoot parser fuel
                                                          (dir ++ [item]) s)))
            with ((dir ++ [item])
                  :: Expect.statted
                       (log (FileScanner.scanDirectory fs projectRoot parser fuel
                                                       (dir ++ [item]) s))).
          change (Expect.listed
                    ([Query (relative projectRoot (dir ++ [item]))]
                     ++ Stat (dir ++ [item])
                        :: log (FileScanner.scanDirectory fs projectRoot parser fuel
                                                          (dir ++ [item]) s)))
            with (Expect.listed
                    (log (FileScanner.scanDirectory fs projectRoot parser fuel
                                                    (dir ++ [item]) s))).
          split; [| split].
          * constructor; [| exact Hs].
            intros Hin'. destruct (Hsu _ Hin') as [i [r [_ Heq]]].
            rewrite <- (app_nil_r (dir ++ [item])) in Heq at 1.
            apply app_inv_head in Heq. discriminate.
          * exact Hli.
          * intros p Hp. cbn [app] in Hp. destruct Hp as [<- | Hp].
            -- exists item, []. split; [left; reflexivity | reflexivity].
            -- apply in_app_or in Hp. destruct Hp as [Hp | Hp].
               ++ destruct (Hsu p Hp) as [i [r [_ ->]]].
                  exists item, (i :: r). split; [left; reflexivity |].
                  rewrite <- app_assoc. reflexivity.
               ++ destruct (Hlu p Hp) as [-> | [i [r [_ ->]]]].
                  ** exists item, []. split; [left; reflexivity | reflexivity].
                  ** exists item, (i :: r). split; [left; reflexivity |].
                     rewrite <- app_assoc. reflexivity.
        + cbn. split; [constructor; [intros [] | constructor] |].
          split; [constructor |].
          intros p [<- | []]. exists item, []. split; [left; reflexivity | reflexivity]. }
    destruct (Hloop Hbody files) as [Hs [Hli Hu]].
    change (Expect.statted (Readdir dir :: ?l)) with (Expect.statted l).
    split; [exact Hs |]. split.
    + intros p Hp. apply Hu. apply in_or_app. left. exact Hp.
    + split.
      * change (NoDup (dir :: Expect.listed
                              (log (forOf (map fst entries)
                                      (FileScanner.visit fs projectRoot parser
                                         (FileScanner.scanDirectory fs projectRoot parser fuel)
                                         dir)
                                      files)))).
        constructor; [| exact Hli].
        intros Hin. destruct (Hu dir (in_or_app _ _ _ (or_intror Hin))) as [i [r [_ Heq]]].
        rewrite <- (app_nil_r dir) in Heq at 1. apply app_inv_head in Heq. discriminate.
      * intros p Hp.
        change (In p (dir :: Expect.listed
                               (log (forOf (map fst entries)
                                       (FileScanner.visit fs projectRoot parser
                                          (FileScanner.scanDirectory fs projectRoot parser fuel)
                                          dir)
                                       files)))) in Hp.
        destruct Hp as [<- | Hp]; [left; reflexivity |].
        right. apply Hu. apply in_or_app. right. exact Hp.
Qed.

End Once.

(** X16. On a well-formed tree a scan stats no path twice and lists no
    directory twice, whatever the rules and however far it gets. *)
Theorem scan_touches_no_path_twice (fs : node) (projectRoot : path)
        (parser : GitignoreParser.t) (t : node) (fuel : nat) :
  lookup fs projectRoot = Some t ->
  wellFormed t = true ->
  NoDup (Expect.statted (log (FileScanner.scanFiles fs projectRoot parser fuel)))
  /\ NoDup (Expect.listed (log (FileScanner.scanFiles fs projectRoot parser fuel))).
Proof.
  intros Hl Hwf. unfold FileScanner.scanFiles.
  destruct (scanDirectory_tidy fs projectRoot parser fuel projectRoot t [] Hl Hwf)
    as [names [Hs [_ [Hli _]]]].
  split; assumption.
Qed.

Lemma scan_touches_no_path_twice_witness :
  NoDup (Expect.statted
           (log (FileScanner.scanFiles Samples.withCache ["proj"] Samples.cacheRules 2)))
  /\ NoDup (Expect.listed
              (log (FileScanner.scanFiles Samples.withCache ["proj"] Samples.cacheRules 2))).
Proof.
  apply (scan_touches_no_path_twice
           Samples.withCache ["proj"] Samples.cacheRules
           (Dir [("cache", Locked);
                 ("tmp", Dir [("lost", Gone)]);
                 (".github", Dir [("ci.yml", File "c")]);
                 ("src", Dir [("a.ts", File "a"); (".env", File "e")]);
                 ("main.ts", File "m")])).
  - reflexivity.
  - reflexivity.
Defined.
